(** * Prep2Hire: the rule-based mock-interview backend

  A shallow embedding of [backend/interview_engine.py],
  [backend/scoring_engine.py], [backend/resume_parser.py],
  [backend/jd_parser.py] and of the interview routes of [backend/main.py],
  with the properties the design document states about them.

  Conventions of the embedding.
  - A Python [float] is an exact rational ([Q]); [int] is [Z]; a length is
    a [nat].  Comparisons and divisions are the exact ones.
  - A Python [str] is a [string]; its characters are classified as Python
    classifies the ASCII characters (code points below 128); characters
    above 127 are taken as caseless symbols that are neither word
    characters, nor digits, nor white space.
  - A dictionary whose iteration order the code relies on is an association
    list in insertion order.
  - [random.choice] takes its draw (a natural number) as an argument. *)

From Stdlib Require Import Ascii String DecimalString.
From Stdlib Require Import List Bool Arith ZArith QArith Qround Lia.
Import ListNotations.

Set Implicit Arguments.

(** ** Numbers *)

Module Num.

Local Open Scope Q_scope.

(** Python's [sum]: starts from 0 and adds from the left. *)
Definition py_sum (xs : list Q) : Q := fold_left Qplus xs 0.

(** [len(xs)] as a number. *)
Definition len {A} (xs : list A) : Q := inject_Z (Z.of_nat (length xs)).

Definition Qltb (x y : Q) : bool := negb (Qle_bool y x).
Definition Qleb (x y : Q) : bool := Qle_bool x y.

(** The arithmetic mean of the design document: the sum of the values over
    their number. *)
Definition mean (xs : list Q) : Q :=
  fold_right Qplus 0 xs / inject_Z (Z.of_nat (length xs)).

End Num.

Infix "<?" := Num.Qltb : Q_scope.
Infix "<=?" := Num.Qleb : Q_scope.

(** ** Strings *)

Module PyStr.

Local Open Scope string_scope.

Definition code (c : ascii) : nat := nat_of_ascii c.

Definition in_range (lo hi : nat) (c : ascii) : bool :=
  ((lo <=? code c) && (code c <=? hi))%nat.

Definition is_upper (c : ascii) : bool := in_range 65 90 c.
Definition is_lower (c : ascii) : bool := in_range 97 122 c.
Definition is_alpha (c : ascii) : bool := is_upper c || is_lower c.

(** [\d] *)
Definition is_digit (c : ascii) : bool := in_range 48 57 c.

(** [\w]: letters, digits and the underscore. *)
Definition is_word (c : ascii) : bool :=
  is_alpha c || is_digit c || (code c =? 95)%nat.

(** [\s] and [str.isspace]: tab, line feed, vertical tab, form feed,
    carriage return, the four separators 28 to 31, and the space. *)
Definition is_space (c : ascii) : bool := in_range 9 13 c || in_range 28 32 c.

Definition lower_char (c : ascii) : ascii :=
  if is_upper c then ascii_of_nat (code c + 32) else c.

Definition upper_char (c : ascii) : ascii :=
  if is_lower c then ascii_of_nat (code c - 32) else c.

Fixpoint map_str (f : ascii -> ascii) (s : string) : string :=
  match s with
  | EmptyString => EmptyString
  | String c s' => String (f c) (map_str f s')
  end.

(** [s.lower()] *)
Definition lower (s : string) : string := map_str lower_char s.

Fixpoint lstrip (s : string) : string :=
  match s with
  | EmptyString => EmptyString
  | String c s' => if is_space c then lstrip s' else s
  end.

Fixpoint rstrip (s : string) : string :=
  match s with
  | EmptyString => EmptyString
  | String c s' =>
      match rstrip s' with
      | EmptyString => if is_space c then EmptyString else String c EmptyString
      | r => String c r
      end
  end.

(** [s.strip()] *)
Definition strip (s : string) : string := rstrip (lstrip s).

(** [s.startswith(p)] *)
Fixpoint prefix (p s : string) : bool :=
  match p, s with
  | EmptyString, _ => true
  | String a p', String b s' => Ascii.eqb a b && prefix p' s'
  | String _ _, EmptyString => false
  end.

(** [sub in s] *)
Fixpoint contains (sub s : string) : bool :=
  prefix sub s ||
  match s with
  | EmptyString => false
  | String _ s' => contains sub s'
  end.

Definition is_empty (s : string) : bool :=
  match s with EmptyString => true | String _ _ => false end.

(** [s.split()]: the maximal runs of characters that are not white space;
    [cur] is the run being read. *)
Fixpoint split_from (cur s : string) : list string :=
  match s with
  | EmptyString => if is_empty cur then [] else [cur]
  | String c s' =>
      if is_space c then
        if is_empty cur then split_from EmptyString s'
        else cur :: split_from EmptyString s'
      else split_from (cur ++ String c EmptyString) s'
  end.

Definition split (s : string) : list string := split_from EmptyString s.

(** [s.title()]: a letter after a letter is lowered, any other letter is
    raised. *)
Fixpoint title_from (previous_is_cased : bool) (s : string) : string :=
  match s with
  | EmptyString => EmptyString
  | String c s' =>
      String (if previous_is_cased then lower_char c else upper_char c)
             (title_from (is_alpha c) s')
  end.

Definition title (s : string) : string := title_from false s.

(** [s.replace(a, b)] for single characters. *)
Definition replace (a b : ascii) (s : string) : string :=
  map_str (fun c => if Ascii.eqb c a then b else c) s.

(** [template.format(skill=skill)] for a template whose only braces are
    those of the replacement field [{skill}]; [skip] counts the characters
    of a field still to pass over. *)
Fixpoint format_from (skip : nat) (template skill : string) : string :=
  match template with
  | EmptyString => EmptyString
  | String c t' =>
      match skip with
      | S k => format_from k t' skill
      | O =>
          if prefix "{skill}" template
          then skill ++ format_from 6 t' skill
          else String c (format_from 0 t' skill)
      end
  end.

Definition format (template skill : string) : string :=
  format_from 0 template skill.

(** The number of replacement fields [{skill}] of a template. *)
Fixpoint fields (template : string) : nat :=
  match template with
  | EmptyString => 0
  | String _ t' =>
      ((if prefix "{skill}" template then 1 else 0) + fields t')%nat
  end.

(** [int(s)] for a string of decimal digits. *)
Definition int (s : string) : Z :=
  fold_left (fun acc c => (acc * 10 + Z.of_nat (code c - 48))%Z)
            (list_ascii_of_string s) 0%Z.

(** [str(n)] for a length. *)
Definition of_nat (n : nat) : string :=
  NilEmpty.string_of_uint (Nat.to_uint n).

(** [list(set(xs))] and set cardinalities: the elements without repeats,
    in the order of their first occurrence. *)
Fixpoint dedup (xs : list string) : list string :=
  match xs with
  | [] => []
  | x :: xs' =>
      x :: filter (fun y => negb (String.eqb x y)) (dedup xs')
  end.

Definition mem (x : string) (xs : list string) : bool :=
  existsb (String.eqb x) xs.

End PyStr.

(** ** Regular expressions

  The part of Python's [re] the parsers and the scorer use, with the
  priorities of its backtracking matcher: the left branch of an
  alternative first, as many repetitions as possible first. *)

Module Re.

Import PyStr.
Local Open Scope string_scope.

Inductive regex :=
| Eps                                 (* the empty pattern *)
| Chr (p : ascii -> bool)             (* one character of a class *)
| Seq (r1 r2 : regex)
| Alt (r1 r2 : regex)                 (* r1|r2 *)
| Star (r : regex)                    (* r*, greedy *)
| Group (r : regex)                   (* (r), the capturing group *)
| WordB.                              (* \b *)

Definition Lit (c : ascii) : regex := Chr (Ascii.eqb c).
Definition Plus (r : regex) : regex := Seq r (Star r).         (* r+ *)
Definition Opt (r : regex) : regex := Alt r Eps.               (* r? *)

(** [r{n,}] *)
Fixpoint AtLeast (n : nat) (r : regex) : regex :=
  match n with O => Star r | S k => Seq r (AtLeast k r) end.

(** A literal text, as [re.escape] makes one. *)
Fixpoint Str (s : string) : regex :=
  match s with
  | EmptyString => Eps
  | String c s' => Seq (Lit c) (Str s')
  end.

Fixpoint seq (rs : list regex) : regex :=
  match rs with
  | [] => Eps
  | r :: rs' => Seq r (seq rs')
  end.

Definition word_opt (c : option ascii) : bool :=
  match c with Some c => is_word c | None => false end.

Definition head (s : string) : option ascii :=
  match s with EmptyString => None | String c _ => Some c end.

(** The text matched when [s] was read down to its suffix [rest]. *)
Definition consumed (s rest : string) : string :=
  substring 0 (String.length s - String.length rest) s.

(** A match in progress: the character before the position, the text from
    the position on, and the text of the group when it has been closed. *)
Definition cont (R : Type) : Type :=
  option ascii -> string -> option string -> option R.

Fixpoint run {R} (r : regex) (prev : option ascii) (s : string)
         (cap : option string) (k : cont R) : option R :=
  match r with
  | Eps => k prev s cap
  | Chr p =>
      match s with
      | String c s' => if p c then k (Some c) s' cap else None
      | EmptyString => None
      end
  | Seq r1 r2 =>
      run r1 prev s cap (fun prev' s' cap' => run r2 prev' s' cap' k)
  | Alt r1 r2 =>
      match run r1 prev s cap k with
      | Some x => Some x
      | None => run r2 prev s cap k
      end
  | Star r1 =>
      (fix loop (fuel : nat) (prev : option ascii) (s : string)
           (cap : option string) : option R :=
         match fuel with
         | O => k prev s cap
         | S fuel' =>
             match
               run r1 prev s cap
                   (fun prev' s' cap' =>
                      if (String.length s' <? String.length s)%nat
                      then loop fuel' prev' s' cap'
                      else None)
             with
             | Some x => Some x
             | None => k prev s cap
             end
         end) (String.length s) prev s cap
  | Group r1 =>
      run r1 prev s cap
          (fun prev' s' _ => k prev' s' (Some (consumed s s')))
  | WordB =>
      if xorb (word_opt prev) (word_opt (head s)) then k prev s cap
      else None
  end.

(** What a match gives: the text matched and the text of the group. *)
Record found := mkFound { whole : string; group1 : option string }.

(** A match that starts at the position given. *)
Definition match_here (r : regex) (prev : option ascii) (s : string)
  : option found :=
  run r prev s None
      (fun _ rest cap => Some (mkFound (consumed s rest) cap)).

(** [re.search]: the match at the leftmost position that has one. *)
Fixpoint search_from (r : regex) (prev : option ascii) (s : string)
  : option found :=
  match match_here r prev s with
  | Some m => Some m
  | None =>
      match s with
      | EmptyString => None
      | String c s' => search_from r (Some c) s'
      end
  end.

Definition search (r : regex) (text : string) : option found :=
  search_from r None text.

(** The matches from left to right that do not overlap; [skip] counts the
    characters of the last match still to pass over.  (None of the patterns
    used matches the empty text.) *)
Fixpoint finditer_from (r : regex) (skip : nat) (prev : option ascii)
         (s : string) : list found :=
  match skip with
  | S k =>
      match s with
      | EmptyString => []
      | String c s' => finditer_from r k (Some c) s'
      end
  | O =>
      match match_here r prev s, s with
      | Some m, String c s' =>
          m :: finditer_from r (String.length (whole m) - 1) (Some c) s'
      | Some m, EmptyString => [m]
      | None, String c s' => finditer_from r 0 (Some c) s'
      | None, EmptyString => []
      end
  end.

(** [re.findall]: the group of each match when the pattern has a group,
    the whole match otherwise. *)
Definition findall (r : regex) (text : string) : list string :=
  map (fun m => match group1 m with Some g => g | None => whole m end)
      (finditer_from r 0 None text).

End Re.

(** ** resume_parser.py and jd_parser.py *)

(** A skill profile: the categories in insertion order, each with its
  matched skills. *)
Definition SkillProfile : Type := list (string * list string).

(** The vocabulary both parsers set up in [__init__] as [self.tech_skills]. *)
Module Vocabulary.

Local Open Scope string_scope.

Definition tech_skills : list (string * list string) :=
  [ ("languages",
      ["python"; "java"; "javascript"; "typescript"; "c++"; "c#"; "ruby";
       "go"; "rust"; "php"; "swift"; "kotlin"; "scala"; "r"; "matlab"]);
    ("frameworks",
      ["react"; "angular"; "vue"; "django"; "flask"; "fastapi"; "spring";
       "express"; "node.js"; "nodejs"; ".net"; "laravel"; "rails"]);
    ("databases",
      ["mysql"; "postgresql"; "mongodb"; "redis"; "cassandra";
       "dynamodb"; "oracle"; "sql server"; "sqlite"]);
    ("cloud",
      ["aws"; "azure"; "gcp"; "google cloud"; "kubernetes"; "docker";
       "terraform"; "jenkins"; "ci/cd"]);
    ("ml_ai",
      ["tensorflow"; "pytorch"; "scikit-learn"; "keras"; "pandas";
       "numpy"; "machine learning"; "deep learning"; "nlp";
       "computer vision"]);
    ("tools",
      ["git"; "jira"; "confluence"; "agile"; "scrum"; "rest api";
       "graphql"; "microservices"]) ].

(** [r'\b' + re.escape(skill) + r'\b'] *)
Definition skill_pattern (skill : string) : Re.regex :=
  Re.Seq Re.WordB (Re.Seq (Re.Str skill) Re.WordB).

Definition is_match (m : option Re.found) : bool :=
  match m with Some _ => true | None => false end.

(** The two nested loops shared by [ResumeParser.extract_skills] and
    [JDParser.extract_required_skills]. *)
Definition scan_skills (vocabulary : list (string * list string))
           (text : string) : SkillProfile :=
  let text_lower := PyStr.lower text in
  fold_left
    (fun (extracted_skills : SkillProfile) (entry : string * list string) =>
       let (category, skills) := entry in
       let found_skills :=
         fold_left
           (fun found_skills skill =>
              if is_match (Re.search (skill_pattern skill) text_lower)
              then (found_skills ++ [PyStr.title skill])%list
              else found_skills)
           skills [] in
       match found_skills with
       | [] => extracted_skills
       | _ :: _ => (extracted_skills ++ [(category, found_skills)])%list
       end)
    vocabulary [].

End Vocabulary.

Module ResumeParser.

Import PyStr Re.
Local Open Scope string_scope.

Definition tech_skills := Vocabulary.tech_skills.

Definition extract_skills (text : string) : SkillProfile :=
  Vocabulary.scan_skills tech_skills text.

Definition digit : regex := Chr is_digit.
Definition space : regex := Chr is_space.

Definition exp_patterns : list regex :=
  [ (* (\d+)\+?\s*years?\s*of\s*experience *)
    seq [Group (Plus digit); Opt (Lit "+"); Star space; Str "year";
         Opt (Lit "s"); Star space; Str "of"; Star space;
         Str "experience"];
    (* experience\s*:?\s*(\d+)\+?\s*years? *)
    seq [Str "experience"; Star space; Opt (Lit ":"); Star space;
         Group (Plus digit); Opt (Lit "+"); Star space; Str "year";
         Opt (Lit "s")];
    (* (\d+)\+?\s*yrs?\s*experience *)
    seq [Group (Plus digit); Opt (Lit "+"); Star space; Str "yr";
         Opt (Lit "s"); Star space; Str "experience"] ].

(** [match.group(1)] *)
Definition group (m : found) : string :=
  match group1 m with Some g => g | None => EmptyString end.

(** The ['years'] entry of what [extract_experience] returns: one search
    for each pattern. *)
Definition extract_experience (text : string) : Z :=
  fold_left
    (fun years_of_experience pattern =>
       match search pattern (lower text) with
       | Some m => Z.max years_of_experience (int (group m))
       | None => years_of_experience
       end)
    exp_patterns 0%Z.

End ResumeParser.

Module JDParser.

Import PyStr Re.
Local Open Scope string_scope.

Definition tech_skills := Vocabulary.tech_skills.

Definition extract_required_skills (text : string) : SkillProfile :=
  Vocabulary.scan_skills tech_skills text.

Definition digit : regex := Chr is_digit.
Definition space : regex := Chr is_space.

Definition patterns : list regex :=
  [ (* (\d+)\+?\s*years?\s*of\s*experience *)
    seq [Group (Plus digit); Opt (Lit "+"); Star space; Str "year";
         Opt (Lit "s"); Star space; Str "of"; Star space;
         Str "experience"];
    (* minimum\s+(\d+)\+?\s*years? *)
    seq [Str "minimum"; Plus space; Group (Plus digit); Opt (Lit "+");
         Star space; Str "year"; Opt (Lit "s")];
    (* (\d+)\+?\s*years?\s*experience\s*required *)
    seq [Group (Plus digit); Opt (Lit "+"); Star space; Str "year";
         Opt (Lit "s"); Star space; Str "experience"; Star space;
         Str "required"];
    (* at least\s+(\d+)\+?\s*years? *)
    seq [Str "at least"; Plus space; Group (Plus digit); Opt (Lit "+");
         Star space; Str "year"; Opt (Lit "s")] ].

(** The maximum kept by the two nested loops of
    [extract_experience_required]. *)
Definition scan_years (text : string) : Z :=
  fold_left
    (fun max_years pattern =>
       let matches := findall pattern (lower text) in
       fold_left (fun max_years mtch => Z.max max_years (int mtch))
                 matches max_years)
    patterns 0%Z.

Definition extract_experience_required (text : string) : Z :=
  let max_years := scan_years text in
  if (0 <? max_years)%Z then max_years else 2%Z.

End JDParser.

(** ** interview_engine.py *)

Inductive Difficulty := easy | medium | hard.

Inductive QuestionType := technical | conceptual | behavioral | scenario_based.

Module InterviewEngine.

Import Num.
Local Open Scope Q_scope.

(** The mutable attributes of an [InterviewEngine] object.  The attributes
    [difficulty_levels] and [question_types] are set once in [__init__]
    and never assigned again; they are the constants below. *)
Record engine := mkEngine {
  current_difficulty : Difficulty;
  question_count : Z;
  max_questions : Z
}.

Definition difficulty_levels : list Difficulty := [easy; medium; hard].

Definition question_types : list QuestionType :=
  [technical; conceptual; behavioral; scenario_based].

(** [InterviewEngine()] *)
Definition init : engine :=
  {| current_difficulty := easy; question_count := 0; max_questions := 10 |}.

Definition set_difficulty (self : engine) (d : Difficulty) : engine :=
  {| current_difficulty := d;
     question_count := question_count self;
     max_questions := max_questions self |}.

(** [adjust_difficulty]: the engine after the call and the value returned. *)
Definition adjust_difficulty (self : engine) (recent_scores : list Q)
  : engine * Difficulty :=
  match recent_scores with
  | [] => (self, current_difficulty self)
  | _ :: _ =>
      let avg_score := py_sum recent_scores / len recent_scores in
      let self' :=
        if 75 <? avg_score then
          match current_difficulty self with
          | easy => set_difficulty self medium
          | medium => set_difficulty self hard
          | hard => self
          end
        else if avg_score <? 40 then
          match current_difficulty self with
          | hard => set_difficulty self medium
          | medium => set_difficulty self easy
          | easy => self
          end
        else self in
      (self', current_difficulty self')
  end.

(** [recent_scores[-3:]] *)
Definition last_three {A} (xs : list A) : list A :=
  skipn (length xs - 3) xs.

Definition should_terminate_early (recent_scores : list Q) : bool :=
  if (length recent_scores <? 3)%nat then false
  else
    let last_three := last_three recent_scores in
    let avg_last_three := py_sum last_three / 3 in
    avg_last_three <? 30.

(** The strings the code uses for the levels and the question types. *)
Definition difficulty_name (d : Difficulty) : string :=
  match d with
  | easy => "easy" | medium => "medium" | hard => "hard"
  end%string.

Definition question_type_name (t : QuestionType) : string :=
  match t with
  | technical => "technical"
  | conceptual => "conceptual"
  | behavioral => "behavioral"
  | scenario_based => "scenario-based"
  end%string.

Definition QUESTION_BANK (difficulty : Difficulty)
           (question_type : QuestionType) : list string :=
  match difficulty, question_type with
  | easy, technical =>
      ["What is {skill} and where have you used it?";
       "Explain basic features of {skill}."]
  | easy, conceptual =>
      ["What problem does {skill} solve?";
       "Explain core concepts of {skill}."]
  | easy, behavioral =>
      ["Tell me about a project you enjoyed working on.";
       "How do you approach learning a new technology?"]
  | easy, scenario_based =>
      ["How would you debug a simple error in your application?";
       "What steps do you take when your code doesn’t work?"]
  | medium, technical =>
      ["How would you optimize performance in a {skill} project?";
       "Explain common challenges you faced while using {skill}."]
  | medium, conceptual =>
      ["Compare {skill} with an alternative technology.";
       "Explain trade-offs involved when using {skill}."]
  | medium, behavioral =>
      ["Describe a challenging project and how you handled it.";
       "Tell me about a time you worked under pressure."]
  | medium, scenario_based =>
      ["How would you design a scalable web application?";
       "How would you handle a production bug reported by users?"]
  | hard, technical =>
      ["Design a scalable system using {skill} for millions of users.";
       "How would you improve fault tolerance in a {skill} system?"]
  | hard, conceptual =>
      ["Explain internal architecture or algorithms behind {skill}.";
       "Discuss limitations of {skill} in large-scale systems."]
  | hard, behavioral =>
      ["Tell me about a critical technical decision you made.";
       "How do you balance speed vs quality in deadlines?"]
  | hard, scenario_based =>
      ["A production system goes down suddenly. Walk me through your response.";
       "How would you redesign a legacy system for scalability?"]
  end%string.

(** What the routes keep of a parsed resume and of a parsed job
    description, as far as the engine reads them: the entries ["skills"]
    and ["required_skills"]. *)
Record ResumeData := mkResume { skills : SkillProfile }.
Record JDData := mkJD { required_skills : SkillProfile }.

(** [random.choice(xs)] with its draw; [d] stands for the [IndexError] on
    an empty list, which no call here reaches. *)
Definition choice {A} (draw : nat) (xs : list A) (d : A) : A :=
  nth (draw mod List.length xs) xs d.

(** [for v in d.values(): out.extend(v)] *)
Definition flatten (d : SkillProfile) : list string :=
  fold_left (fun out entry => out ++ snd entry) d [].

(** [generate_question]; the two draws are those of the two calls of
    [random.choice].  The order in which a Python set lists its elements
    is not fixed; the order of first occurrence stands for it. *)
Definition generate_question (resume_data : ResumeData) (jd_data : JDData)
           (difficulty : Difficulty) (question_type : QuestionType)
           (draw_skill draw_template : nat) : string * list string :=
  let resume_skills := flatten (skills resume_data) in
  let jd_skills := flatten (required_skills jd_data) in
  let combined_skills := PyStr.dedup (resume_skills ++ jd_skills) in
  let skill :=
    match combined_skills with
    | [] => "programming"%string
    | _ :: _ => choice draw_skill combined_skills EmptyString
    end in
  let templates := QUESTION_BANK difficulty question_type in
  let question_template := choice draw_template templates EmptyString in
  let question := PyStr.format question_template skill in
  let expected_topics :=
    [skill; question_type_name question_type; difficulty_name difficulty] in
  (question, expected_topics).

Definition get_next_question_type (self : engine) : QuestionType :=
  nth (Z.to_nat (question_count self mod Z.of_nat (List.length question_types)))
      question_types technical.

(** The dictionary [conduct_interview] returns. *)
Record QuestionData := mkQuestion {
  question_number : Z;
  question : string;
  expected_topics : list string;
  difficulty : Difficulty;
  question_type : QuestionType;
  q_max_questions : Z;
  time_limit : Z
}.

Definition conduct_interview (self : engine) (resume_data : ResumeData)
           (jd_data : JDData) (draw_skill draw_template : nat)
  : engine * QuestionData :=
  let question_type := get_next_question_type self in
  let (question, expected_topics) :=
    generate_question resume_data jd_data (current_difficulty self)
                      question_type draw_skill draw_template in
  let self' :=
    {| current_difficulty := current_difficulty self;
       question_count := question_count self + 1;
       max_questions := max_questions self |} in
  (self',
   {| question_number := question_count self';
      question := question;
      expected_topics := expected_topics;
      difficulty := current_difficulty self';
      question_type := question_type;
      q_max_questions := max_questions self';
      time_limit := 60 |}).


End InterviewEngine.

(** ** scoring_engine.py *)

Module ScoringEngine.

Import Num.
Local Open Scope string_scope.
Local Open Scope Q_scope.

(** [int(x)] on a float: truncation towards zero. *)
Definition py_int (x : Q) : Z :=
  if 0 <=? x then Qfloor x else Qceiling x.

(** [_calculate_time_score]; every branch returns an [int].  For the limit
    of 60 seconds the routes pass, the bounds [60 * 0.6] and [60 * 0.8] are
    36.0 and 48.0 in floating point too, and each quotient truncated is
    either exact or well away from a whole number, so that the exact
    arithmetic gives the results of the code. *)
Definition _calculate_time_score (time_taken max_time : Z) : Z :=
  if (time_taken <=? 0)%Z then 0%Z
  else
    let optimal_min := inject_Z max_time * 0.6 in
    let optimal_max := inject_Z max_time * 0.8 in
    if (optimal_min <=? inject_Z time_taken)
       && (inject_Z time_taken <=? optimal_max) then 100%Z
    else if inject_Z time_taken <? optimal_min then
      py_int ((inject_Z time_taken / optimal_min) * 100)
    else if (time_taken <=? max_time)%Z then
      let penalty :=
        (inject_Z time_taken - optimal_max)
        / (inject_Z max_time - optimal_max) in
      py_int (100 - (penalty * 20))
    else
      Z.max 0 (50 - py_int (inject_Z (time_taken - max_time) / 10)).

(** The keys of a score dictionary. *)
Inductive Metric :=
| Accuracy | Clarity | Depth | Relevance | TimeEfficiency | Overall.

Definition metric_key (m : Metric) : string :=
  match m with
  | Accuracy => "accuracy"
  | Clarity => "clarity"
  | Depth => "depth"
  | Relevance => "relevance"
  | TimeEfficiency => "time_efficiency"
  | Overall => "overall"
  end%string.

Definition metric_eqb (a b : Metric) : bool :=
  match a, b with
  | Accuracy, Accuracy | Clarity, Clarity | Depth, Depth
  | Relevance, Relevance | TimeEfficiency, TimeEfficiency
  | Overall, Overall => true
  | _, _ => false
  end.

(** [self.weights], in the order of its keys. *)
Definition weights : list (Metric * Q) :=
  [(Accuracy, 0.30); (Clarity, 0.20); (Depth, 0.25); (Relevance, 0.15);
   (TimeEfficiency, 0.10)].

Definition weight (m : Metric) : Q :=
  match find (fun e => metric_eqb (fst e) m) weights with
  | Some e => snd e
  | None => 0
  end.

(** The dictionary [score_answer] returns. *)
Record AnswerScore := mkScore {
  accuracy : Q;
  clarity : Q;
  depth : Q;
  relevance : Q;
  time_efficiency : Q;
  overall : Q;
  feedback : string
}.

(** [s[metric]] *)
Definition get (metric : Metric) (s : AnswerScore) : Q :=
  match metric with
  | Accuracy => accuracy s
  | Clarity => clarity s
  | Depth => depth s
  | Relevance => relevance s
  | TimeEfficiency => time_efficiency s
  | Overall => overall s
  end.

(** [min(a, b)] *)
Definition py_min (a b : Q) : Q := if b <? a then b else a.

(** The nearest integer, a tie going to the even one. *)
Definition round_half_even (x : Q) : Z :=
  let f := Qfloor x in
  let d := x - inject_Z f in
  if d <? 1 # 2 then f
  else if (1 # 2) <? d then (f + 1)%Z
  else if Z.even f then f else (f + 1)%Z.

(** [round(x, 2)] *)
Definition round2 (x : Q) : Q := round_half_even (x * 100) # 100.

Definition structure_markers : list string :=
  ["first"; "second"; "then"; "because"; "therefore";
   "however"; "for example"; "in conclusion"]%string.

(** [\b[A-Z]{2,}\b|\b\w+\(\)] *)
Definition technical_pattern : Re.regex :=
  Re.Alt
    (Re.seq [Re.WordB; Re.AtLeast 2 (Re.Chr PyStr.is_upper); Re.WordB])
    (Re.seq [Re.WordB; Re.Plus (Re.Chr PyStr.is_word); Re.Str "()"]).

(** [\b\w{4,}\b] *)
Definition long_word_pattern : Re.regex :=
  Re.seq [Re.WordB; Re.AtLeast 4 (Re.Chr PyStr.is_word); Re.WordB].

Definition nat_Q (n : nat) : Q := inject_Z (Z.of_nat n).

Definition too_short (answer : string) : bool :=
  PyStr.is_empty answer
  || (String.length (PyStr.strip answer) <? 10)%nat.

Definition score_answer (question answer : string)
           (expected_topics : list string) (time_taken max_time : Z)
  : AnswerScore :=
  if too_short answer then
    {| accuracy := 0; clarity := 0; depth := 0; relevance := 0;
       time_efficiency := 0; overall := 0;
       feedback := "Answer is too short or empty." |}
  else
    let answer_lower := PyStr.lower answer in
    let word_count := List.length (PyStr.split answer) in
    (* Accuracy *)
    let topics_covered :=
      List.length
        (filter (fun topic => PyStr.contains (PyStr.lower topic) answer_lower)
                expected_topics) in
    let accuracy :=
      py_min 100
        ((nat_Q topics_covered
          / nat_Q (Nat.max (List.length expected_topics) 1)) * 100) in
    (* Clarity *)
    let has_structure :=
      existsb (fun m => PyStr.contains m answer_lower) structure_markers in
    let clarity :=
      py_min 100
        ((nat_Q word_count / 50) * 50 + (if has_structure then 50 else 0)) in
    (* Depth *)
    let technical_terms :=
      List.length (Re.findall technical_pattern answer) in
    let depth :=
      py_min 100
        ((nat_Q word_count / 100) * 70 + nat_Q technical_terms * 5) in
    (* Relevance *)
    let question_words :=
      PyStr.dedup (Re.findall long_word_pattern (PyStr.lower question)) in
    let answer_words :=
      PyStr.dedup (Re.findall long_word_pattern answer_lower) in
    let overlap :=
      List.length
        (filter (fun w => PyStr.mem w answer_words) question_words) in
    let relevance :=
      py_min 100
        ((nat_Q overlap / nat_Q (Nat.max (List.length question_words) 1))
         * 100) in
    (* Time efficiency *)
    let time_efficiency :=
      inject_Z (_calculate_time_score time_taken max_time) in
    (* Overall *)
    let overall :=
      accuracy * weight Accuracy
      + clarity * weight Clarity
      + depth * weight Depth
      + relevance * weight Relevance
      + time_efficiency * weight TimeEfficiency in
    let feedback :=
      ("Covered " ++ PyStr.of_nat topics_covered ++ "/"
       ++ PyStr.of_nat (List.length expected_topics)
       ++ " expected topics with a "
       ++ (if has_structure then "clear" else "basic")
       ++ " explanation.")%string in
    {| accuracy := round2 accuracy;
       clarity := round2 clarity;
       depth := round2 depth;
       relevance := round2 relevance;
       time_efficiency := round2 time_efficiency;
       overall := round2 overall;
       feedback := feedback |}.

(** The dictionary [calculate_final_score] returns; the key
    ['total_questions'] is absent from the report on no answer. *)
Record Report := mkReport {
  final_score : Q;
  skill_breakdown : list (Metric * Q);
  strengths : list string;
  weaknesses : list string;
  recommendation : string;
  hiring_readiness : string;
  total_questions : option nat
}.

(** [metric.replace('_', ' ').title()] *)
Definition display (metric : Metric) : string :=
  PyStr.title (PyStr.replace "_" " " (metric_key metric)).

(** [xs or ['None identified']] *)
Definition or_none (xs : list string) : list string :=
  match xs with [] => ["None identified"%string] | _ :: _ => xs end.

(** [d[key]] on a dictionary that has the key. *)
Definition lookup (key : Metric) (d : list (Metric * Q)) : Q :=
  match find (fun e => metric_eqb (fst e) key) d with
  | Some e => snd e
  | None => 0
  end.

(** The loop of [calculate_final_score] that fills [avg_scores]: the keys
    of the weights and then ['overall'], each with the mean of its values. *)
Definition average_scores (all_scores : list AnswerScore)
  : list (Metric * Q) :=
  let avg_scores :=
    (map (fun e : Metric * Q => (fst e, 0)) weights ++ [(Overall, 0)])%list in
  map (fun e : Metric * Q =>
         let metric := fst e in
         let values := map (get metric) all_scores in
         (metric,
          match values with
          | [] => 0
          | _ :: _ => py_sum values / len values
          end))
      avg_scores.

Definition calculate_final_score (all_scores : list AnswerScore) : Report :=
  match all_scores with
  | [] =>
      {| final_score := 0;
         skill_breakdown := [];
         strengths := [];
         weaknesses := [];
         recommendation := "Unable to assess - no answers provided";
         hiring_readiness := "NOT RECOMMENDED";
         total_questions := None |}
  | _ :: _ =>
      let avg_scores := average_scores all_scores in
      let strengths :=
        map (fun e : Metric * Q => display (fst e))
            (filter (fun e : Metric * Q =>
                       negb (metric_eqb (fst e) Overall) && (75 <=? snd e))
                    avg_scores) in
      let weaknesses :=
        map (fun e : Metric * Q => display (fst e))
            (filter (fun e : Metric * Q =>
                       negb (metric_eqb (fst e) Overall) && (snd e <? 50))
                    avg_scores) in
      let final_score := lookup Overall avg_scores in
      let (recommendation, hiring_readiness) :=
        if 80 <=? final_score then
          ("Excellent - Ready for interviews", "HIGHLY RECOMMENDED")
        else if 65 <=? final_score then
          ("Good - Minor improvements needed", "RECOMMENDED")
        else if 50 <=? final_score then
          ("Fair - Needs practice", "CONDITIONAL")
        else
          ("Needs significant improvement", "NOT RECOMMENDED") in
      {| final_score := round2 final_score;
         skill_breakdown :=
           map (fun e : Metric * Q => (fst e, round2 (snd e))) avg_scores;
         strengths := or_none strengths;
         weaknesses := or_none weaknesses;
         recommendation := recommendation%string;
         hiring_readiness := hiring_readiness%string;
         total_questions := Some (List.length all_scores) |}
  end.

End ScoringEngine.

(** ** main.py: the interview routes

  The routes look a session up in [active_sessions] by its identifier and
  then work on that session alone; they are given here as functions of the
  session found.  An [HTTPException] is a result of its own; the errors
  400 are raised before the session is changed. *)

Module Main.

Import InterviewEngine ScoringEngine.
Local Open Scope string_scope.
Local Open Scope Z_scope.

(** The request body of [/api/submit-answer], without the identifier. *)
Record Answer := mkAnswer {
  answer : string;
  time_taken : Z
}.

(** An entry of [answers_given]. *)
Record AnswerGiven := mkGiven {
  given_question_number : Z;
  given_answer : string;
  given_time_taken : Z
}.

(** [SessionData], without the time of creation.  A [ScoringEngine] holds
    nothing but its constant weights. *)
Record SessionData := mkSession {
  resume_data : option ResumeData;
  jd_data : option JDData;
  interview_engine : option engine;
  scoring_engine : option unit;
  questions_asked : list QuestionData;
  answers_given : list AnswerGiven;
  scores : list AnswerScore
}.

(** [SessionData()] *)
Definition new_session : SessionData :=
  {| resume_data := None; jd_data := None; interview_engine := None;
     scoring_engine := None; questions_asked := []; answers_given := [];
     scores := [] |}.

Inductive Result (A : Type) :=
| Ok (a : A)
| HTTPException (status_code : Z) (detail : string).

Arguments Ok {A} a.
Arguments HTTPException {A} status_code detail.

(** What [/api/submit-answer] answers. *)
Inductive Response :=
| Complete (current_score : AnswerScore) (final_results : Report)
           (termination_reason : option string) (early_termination : bool)
| Continue (current_score : AnswerScore) (next_question : QuestionData)
           (difficulty_adjusted : bool).

Definition difficulty_eqb (a b : Difficulty) : bool :=
  match a, b with
  | easy, easy | medium, medium | hard, hard => true
  | _, _ => false
  end.

Definition start_interview (session : SessionData)
           (draw_skill draw_template : nat)
  : Result (SessionData * QuestionData) :=
  match resume_data session, jd_data session with
  | Some resume, Some jd =>
      let (engine', question_data) :=
        conduct_interview InterviewEngine.init resume jd
                          draw_skill draw_template in
      Ok ({| resume_data := resume_data session;
             jd_data := jd_data session;
             interview_engine := Some engine';
             scoring_engine := Some tt;
             questions_asked := questions_asked session ++ [question_data];
             answers_given := answers_given session;
             scores := scores session |},
          question_data)
  | _, _ =>
      HTTPException 400
        "Resume and JD must be uploaded before starting interview"
  end.

Definition submit_answer (session : SessionData) (answer_data : Answer)
           (draw_skill draw_template : nat)
  : Result (SessionData * Response) :=
  match interview_engine session, scoring_engine session with
  | Some engine0, Some _ =>
      match rev (questions_asked session) with
      | [] => HTTPException 400 "No question to answer"
      | current_question :: _ =>
          (* Score the answer *)
          let score :=
            score_answer (question current_question)
                         (answer answer_data)
                         (expected_topics current_question)
                         (time_taken answer_data) 60 in
          (* Store answer and score *)
          let answers_given' :=
            (answers_given session
             ++ [{| given_question_number := question_number current_question;
                    given_answer := answer answer_data;
                    given_time_taken := time_taken answer_data |}])%list in
          let scores' := (scores session ++ [score])%list in
          let recent_overall_scores := map overall scores' in
          let should_terminate :=
            should_terminate_early recent_overall_scores in
          let max_questions_reached :=
            max_questions engine0 <=? question_count engine0 in
          let stored engine' questions' :=
            {| resume_data := resume_data session;
               jd_data := jd_data session;
               interview_engine := Some engine';
               scoring_engine := scoring_engine session;
               questions_asked := questions';
               answers_given := answers_given';
               scores := scores' |} in
          if should_terminate then
            Ok (stored engine0 (questions_asked session),
                Complete score (calculate_final_score scores')
                         (Some "Performance below threshold") true)
          else if max_questions_reached then
            Ok (stored engine0 (questions_asked session),
                Complete score (calculate_final_score scores') None false)
          else
            let (engine1, new_difficulty) :=
              adjust_difficulty engine0 recent_overall_scores in
            match resume_data session, jd_data session with
            | Some resume, Some jd =>
                let (engine2, next_question) :=
                  conduct_interview engine1 resume jd
                                    draw_skill draw_template in
                Ok (stored engine2
                           (questions_asked session ++ [next_question])%list,
                    Continue score next_question
                             (negb (difficulty_eqb
                                      new_difficulty
                                      (difficulty current_question))))
            | _, _ =>
                (* [resume_data.get] on [None]: the [AttributeError] is
                   turned into this error; [start_interview] rules it
                   out. *)
                HTTPException 500 "Error processing answer"
            end
      end
  | _, _ => HTTPException 400 "Interview not started"
  end.

End Main.

(** ** The reference notions of the design document *)

Module Reference.

Import Num InterviewEngine ScoringEngine Main.
Local Open Scope string_scope.

(** *** Difficulty and time *)



(** The score for the 60 seconds the routes pass, in integer arithmetic. *)
Definition time_score_60 (s : Z) : Z :=
  if (s <=? 0)%Z then 0%Z
  else if (s <? 36)%Z then (s * 100 / 36)%Z
  else if (s <=? 48)%Z then 100%Z
  else if (s <=? 60)%Z then ((1200 - 20 * (s - 48)) / 12)%Z
  else Z.max 0 (50 - (s - 60) / 10)%Z.

(** *** Sessions *)

(** The sessions an interview goes through: [start_interview] on any
    session, then any number of [submit_answer]. *)
Inductive reachable : SessionData -> Prop :=
| reach_start (s0 s1 : SessionData) (ds dt : nat) (q : QuestionData) :
    start_interview s0 ds dt = Ok (s1, q) -> reachable s1
| reach_submit (s s' : SessionData) (a : Answer) (ds dt : nat) (r : Response) :
    reachable s -> submit_answer s a ds dt = Ok (s', r) -> reachable s'.

(** What holds of a started interview. *)
Definition started (s : SessionData) (e : engine) : Prop :=
  interview_engine s = Some e /\
  scoring_engine s = Some tt /\
  resume_data s <> None /\
  jd_data s <> None /\
  questions_asked s <> [] /\
  (1 <= question_count e <= 10)%Z /\
  max_questions e = 10%Z.

(** A session with a parsed resume and a parsed job description, and the
    session [start_interview] makes of it with the draws 0 and 0. *)
Definition uploaded_session : SessionData :=
  {| resume_data := Some (mkResume [("languages", ["Python"; "Java"])]);
     jd_data := Some (mkJD [("languages", ["Java"; "Go"]); ("tools", ["Git"])]);
     interview_engine := None;
     scoring_engine := None;
     questions_asked := [];
     answers_given := [];
     scores := [] |}.

Definition started_session : SessionData :=
  match start_interview uploaded_session 0 0 with
  | Ok (s, _) => s
  | HTTPException _ _ => uploaded_session
  end.

(** *** Skills *)

(** The text after its first [n] characters. *)
Fixpoint drop (n : nat) (s : string) : string :=
  match n, s with
  | O, _ => s
  | S _, EmptyString => EmptyString
  | S k, String _ s' => drop k s'
  end.

(** The last character of [t], or [prev] when [t] is empty. *)
Fixpoint last_char (t : string) (prev : option ascii) : option ascii :=
  match t with
  | EmptyString => prev
  | String c t' => last_char t' (Some c)
  end.

(** A whole-word occurrence of a term: the term stands in the text with no
    word character right before it and none right after it. *)
Definition whole_word_here (term : string) (prev : option ascii) (s : string)
  : bool :=
  negb (Re.word_opt prev)
  && PyStr.prefix term s
  && negb (Re.word_opt (Re.head (drop (String.length term) s))).

Fixpoint whole_word_from (term : string) (prev : option ascii) (s : string)
  : bool :=
  whole_word_here term prev s
  || match s with
     | EmptyString => false
     | String c s' => whole_word_from term (Some c) s'
     end.

Definition whole_word (term text : string) : bool :=
  whole_word_from term None text.

(** Where the pattern of a term matches: at a word boundary, on the term
    itself, with a word boundary after it. *)
Definition boundary_match_here (term : string) (prev : option ascii)
           (s : string) : bool :=
  xorb (Re.word_opt prev) (Re.word_opt (Re.head s))
  && PyStr.prefix term s
  && xorb (Re.word_opt (last_char term prev))
          (Re.word_opt (Re.head (drop (String.length term) s))).

(** The skills of a category the two loops of the parsers report: the terms
    of the category whose pattern is found in the lowered text, title-cased,
    in the order of the vocabulary. *)
Definition term_found (text term : string) : bool :=
  Vocabulary.is_match
    (Re.search (Vocabulary.skill_pattern term) (PyStr.lower text)).

Definition found_in_category (text : string) (terms : list string)
  : list string :=
  map PyStr.title (filter (term_found text) terms).

(** What the loops report for an entry of the vocabulary: the category
    with its terms found, or nothing when no term is found. *)
Definition reported (text : string) (entry : string * list string)
  : SkillProfile :=
  match found_in_category text (snd entry) with
  | [] => []
  | (_ :: _) as found => [(fst entry, found)]
  end.

(** Terms that begin and end with a word character, as "java" does and
    "c++" and ".net" do not. *)
Definition word_edged (term : string) : bool :=
  Re.word_opt (Re.head term) && Re.word_opt (last_char term None).

(** *** Experience *)

(** Every number a list of patterns captures in a text, over all the
    matches of each pattern. *)
Definition all_captures (patterns : list Re.regex) (text : string) : list Z :=
  flat_map (fun p => map PyStr.int (Re.findall p (PyStr.lower text)))
           patterns.

Definition jd_captures (text : string) : list Z :=
  all_captures JDParser.patterns text.

(** The extraction as the design document states it: the greatest number
    captured over all matches, and 2 when nothing matches. *)
Definition stated_extraction (patterns : list Re.regex)
           (extract : string -> Z) : Prop :=
  forall text : string,
    let caps := all_captures patterns text in
    (caps = [] -> extract text = 2%Z) /\
    (caps <> [] ->
     In (extract text) caps /\ forall c, In c caps -> (c <= extract text)%Z).

(** The numbers the resume parser reads: for each of its patterns that
    matches somewhere, the number captured by the leftmost match. *)
Definition resume_captures (text : string) : list Z :=
  flat_map (fun p =>
              match Re.search p (PyStr.lower text) with
              | Some m => [PyStr.int (ResumeParser.group m)]
              | None => []
              end)
           ResumeParser.exp_patterns.

(** *** Questions *)

(** The bank as the design document states it: one replacement field in
    every template. *)
Definition single_field_bank : Prop :=
  forall d qt t, In t (QUESTION_BANK d qt) -> PyStr.fields t = 1%nat.

(** The text before the first replacement field of a template and the text
    after it. *)
Fixpoint before_field (t : string) : string :=
  match t with
  | EmptyString => EmptyString
  | String c t' =>
      if PyStr.prefix "{skill}" t then EmptyString
      else String c (before_field t')
  end.

Fixpoint after_field (t : string) : string :=
  match t with
  | EmptyString => EmptyString
  | String c t' =>
      if PyStr.prefix "{skill}" t then drop 7 t else after_field t'
  end.

(** All the skill strings of a resume and of a job description. *)
Definition all_skills (resume_data : ResumeData) (jd_data : JDData)
  : list string :=
  (concat (map snd (skills resume_data))
   ++ concat (map snd (required_skills jd_data)))%list.

(** *** The final report *)

Local Open Scope Q_scope.

(** The five sub-metrics, and the mean of a metric over the answers. *)
Definition sub_metrics : list Metric :=
  [Accuracy; Clarity; Depth; Relevance; TimeEfficiency].

Definition metric_mean (m : Metric) (all_scores : list AnswerScore) : Q :=
  mean (map (get m) all_scores).

Definition readable (m : Metric) : string :=
  match m with
  | Accuracy => "Accuracy"
  | Clarity => "Clarity"
  | Depth => "Depth"
  | Relevance => "Relevance"
  | TimeEfficiency => "Time Efficiency"
  | Overall => "Overall"
  end.

(** The report on at least one answer, from the mean of each metric: the
    means are reported with two decimals; the strengths, the weaknesses and
    the recommendation are decided on the means themselves. *)
Definition report_of_means (means : Metric -> Q) (n : nat) : Report :=
  {| final_score := round2 (means Overall);
     skill_breakdown :=
       map (fun m => (m, round2 (means m))) (sub_metrics ++ [Overall])%list;
     strengths :=
       or_none (map readable (filter (fun m => 75 <=? means m) sub_metrics));
     weaknesses :=
       or_none (map readable (filter (fun m => means m <? 50) sub_metrics));
     recommendation :=
       if 80 <=? means Overall then "Excellent - Ready for interviews"
       else if 65 <=? means Overall then "Good - Minor improvements needed"
       else if 50 <=? means Overall then "Fair - Needs practice"
       else "Needs significant improvement";
     hiring_readiness :=
       if 80 <=? means Overall then "HIGHLY RECOMMENDED"
       else if 65 <=? means Overall then "RECOMMENDED"
       else if 50 <=? means Overall then "CONDITIONAL"
       else "NOT RECOMMENDED";
     total_questions := Some n |}.


(** The mean of a metric as the loop computes it. *)
Definition loop_mean (all_scores : list AnswerScore) (m : Metric) : Q :=
  py_sum (map (get m) all_scores) / len (map (get m) all_scores).

(** Three answers whose overall scores are 10, 0 and 0. *)
Definition one_in_three : list AnswerScore :=
  [ mkScore 0 0 0 0 100 10 "Covered 0/3 expected topics with a basic explanation.";
    mkScore 0 0 0 0 0 0 "Answer is too short or empty.";
    mkScore 0 0 0 0 0 0 "Answer is too short or empty." ].

End Reference.

(** ** The rest of the parsers, of the engine and of the routes *)

(** jd_parser.py: [extract_role_level] and [compute_skill_match]. *)
Module JDProfile.

Import Num PyStr.
Local Open Scope string_scope.

Inductive RoleLevel := senior | junior | mid.

Definition role_level_name (r : RoleLevel) : string :=
  match r with senior => "senior" | junior => "junior" | mid => "mid" end.

Definition senior_words : list string :=
  ["senior"; "lead"; "principal"; "staff"; "architect"].

Definition junior_words : list string :=
  ["junior"; "entry"; "graduate"; "fresher"].

Definition extract_role_level (text : string) : RoleLevel :=
  let text_lower := lower text in
  if existsb (fun word => contains word text_lower) senior_words then senior
  else if existsb (fun word => contains word text_lower) junior_words
       then junior
       else mid.

(** A Python set of strings: a list without repeats.  [s.update(xs)] *)
Definition set_update (s xs : list string) : list string :=
  dedup (s ++ xs).

(** The loop that flattens a profile to the set of its lowered skills. *)
Definition skill_set (profile : SkillProfile) : list string :=
  fold_left (fun set_ (entry : string * list string) =>
               set_update set_ (map lower (snd entry)))
            profile [].

(** [a.intersection(b)] and [a - b] *)
Definition intersection (a b : list string) : list string :=
  filter (fun x => mem x b) a.

Definition difference (a b : list string) : list string :=
  filter (fun x => negb (mem x b)) a.

(** The dictionary [compute_skill_match] returns. *)
Record SkillMatch := mkMatch {
  match_percentage : Q;
  matched_skills : list string;
  missing_skills : list string;
  total_jd_skills : nat;
  total_matched : nat
}.

Definition compute_skill_match (resume_skills jd_skills : SkillProfile)
  : SkillMatch :=
  let resume_skill_set := skill_set resume_skills in
  let jd_skill_set := skill_set jd_skills in
  let matched_skills := intersection resume_skill_set jd_skill_set in
  let missing_skills := difference jd_skill_set resume_skill_set in
  let match_percentage :=
    match List.length jd_skill_set with
    | O => 0%Q
    | S _ => (len matched_skills / len jd_skill_set * 100)%Q
    end in
  {| match_percentage := ScoringEngine.round2 match_percentage;
     matched_skills := matched_skills;
     missing_skills := missing_skills;
     total_jd_skills := List.length jd_skill_set;
     total_matched := List.length matched_skills |}.

End JDProfile.

(** resume_parser.py: the company names [extract_experience] looks for in
    the section text it has cut out of [text.lower()]. *)
Module ResumeProfile.

Import PyStr Re.
Local Open Scope string_scope.

(** [\b([A-Z][a-z]+(?:\s+[A-Z][a-z]+){1,3})\b] *)
Definition company_pattern : regex :=
  let word := Seq (Chr is_upper) (Plus (Chr is_lower)) in
  let more := Seq (Plus (Chr is_space)) word in
  seq [WordB; Group (seq [word; more; Opt (Seq more (Opt more))]); WordB].

(** [list(set(potential_companies[:5]))] for a section text. *)
Definition companies_in (section_text : string) : list string :=
  let potential_companies := findall company_pattern section_text in
  dedup (firstn 5 potential_companies).

(** No character of the text is an upper-case letter. *)
Fixpoint no_upper (s : string) : bool :=
  match s with
  | EmptyString => true
  | String c s' => negb (is_upper c) && no_upper s'
  end.

End ResumeProfile.

(** interview_engine.py: [reset], and a run of [adjust_difficulty]. *)
Module EngineRuns.

Import InterviewEngine.


(** One call of [adjust_difficulty] for each list of scores, in order. *)
Definition adjust_many (self : engine) (rounds : list (list Q)) : engine :=
  fold_left (fun e scores => fst (adjust_difficulty e scores)) rounds self.

End EngineRuns.

(** main.py: the session [upload_resume] makes, [analyze_job_description]
    and [get_session_status], on the session found. *)
Module Routes.

Import InterviewEngine ScoringEngine Main JDProfile.
Local Open Scope string_scope.


(** [sum(len(skill_list) for skill_list in skills.values())] *)
Definition total_of (profile : SkillProfile) : nat :=
  fold_left (fun n (entry : string * list string) =>
               (n + List.length (snd entry))%nat)
            profile 0%nat.







(** The sessions of one interview: one start on a session that has asked
    nothing yet, then answers. *)
Inductive interview_run : SessionData -> Prop :=
| run_start (s0 s1 : SessionData) (ds dt : nat) (q : QuestionData) :
    questions_asked s0 = [] -> answers_given s0 = [] -> scores s0 = [] ->
    start_interview s0 ds dt = Ok (s1, q) -> interview_run s1
| run_submit (s s' : SessionData) (a : Answer) (ds dt : nat) (r : Response) :
    interview_run s ->
    submit_answer s a ds dt = Ok (s', r) -> interview_run s'.

(** Two levels that are the same or next to each other. *)
Definition near (a b : Difficulty) : bool :=
  match a, b with
  | easy, hard | hard, easy => false
  | _, _ => true
  end.

(** A list of levels in which each is near the one before. *)
Fixpoint stepwise (ds : list Difficulty) : Prop :=
  match ds with
  | a :: ((b :: _) as rest) => near a b = true /\ stepwise rest
  | _ => True
  end.

(** The question type the rotation gives to the question of index [i],
    counted from 0. *)
Definition rotated (i : nat) : QuestionType :=
  nth (i mod 4) question_types technical.

(** A score whose six numbers are between 0 and 100. *)
Definition in_range (sc : AnswerScore) : Prop :=
  (0 <= accuracy sc <= 100 /\ 0 <= clarity sc <= 100 /\
   0 <= depth sc <= 100 /\ 0 <= relevance sc <= 100 /\
   0 <= time_efficiency sc <= 100 /\ 0 <= overall sc <= 100)%Q.


(** What one interview keeps true of its session and its engine. *)
Definition numbered (s : SessionData) (e : engine) : Prop :=
  let qs := questions_asked s in
  interview_engine s = Some e /\
  resume_data s <> None /\ jd_data s <> None /\
  scoring_engine s = Some tt /\
  max_questions e = 10%Z /\
  qs <> [] /\
  question_count e = Z.of_nat (List.length qs) /\
  map question_number qs = map Z.of_nat (seq 1 (List.length qs)) /\
  map question_type qs = map rotated (seq 0 (List.length qs)) /\
  Forall (fun q => time_limit q = 60%Z /\ q_max_questions q = 10%Z) qs /\
  stepwise (map difficulty qs) /\
  hd easy (map difficulty qs) = easy /\
  last (map difficulty qs) easy = current_difficulty e /\
  (List.length qs <= 10)%nat /\
  (List.length qs <= List.length (scores s) + 1)%nat /\
  List.length (answers_given s) = List.length (scores s).

(** The session of the reference upload after one answer, with the draws 1
    and 1. *)
Definition answered_session : SessionData :=
  match submit_answer Reference.started_session
                      (mkAnswer "I used Python at work" 40) 1 1 with
  | Ok (s, _) => s
  | HTTPException _ _ => Reference.started_session
  end.

(** The reference session after two answers that the guard rejects. *)
Definition twice_short_session : SessionData :=
  match submit_answer Reference.started_session (mkAnswer "ok" 5) 0 0 with
  | Ok (s, _) =>
      match submit_answer s (mkAnswer "no idea" 7) 0 0 with
      | Ok (s', _) => s'
      | HTTPException _ _ => s
      end
  | HTTPException _ _ => Reference.started_session
  end.

(** The score of the guard. *)
Definition zero_score : AnswerScore :=
  {| accuracy := 0; clarity := 0; depth := 0; relevance := 0;
     time_efficiency := 0; overall := 0;
     feedback := "Answer is too short or empty." |}.

End Routes.

(** * Properties *)

Section NumFacts.

Import Num.
Local Open Scope Q_scope.

Lemma Qltb_lt (x y : Q) : (x <? y) = true <-> x < y.
Proof.
  unfold Qltb. rewrite negb_true_iff.
  split; intros H.
  - apply Qnot_le_lt. intros Hle. apply Qle_bool_iff in Hle. congruence.
  - destruct (Qle_bool y x) eqn:E; [|reflexivity].
    apply Qle_bool_iff in E. exfalso. exact (Qlt_not_le _ _ H E).
Qed.

Lemma Qltb_ge (x y : Q) : (x <? y) = false <-> y <= x.
Proof.
  unfold Qltb. rewrite negb_false_iff. apply Qle_bool_iff.
Qed.

Lemma fold_left_Qplus_acc (xs : list Q) (a : Q) :
  fold_left Qplus xs a == a + fold_right Qplus 0 xs.
Proof.
  revert a. induction xs as [|x xs IH]; intros a; simpl.
  - ring.
  - rewrite IH. ring.
Qed.

Lemma py_sum_fold_right (xs : list Q) : py_sum xs == fold_right Qplus 0 xs.
Proof. unfold py_sum. rewrite fold_left_Qplus_acc. ring. Qed.

(** What the code computes as [sum(xs) / len(xs)] is the arithmetic mean. *)
Lemma py_mean (xs : list Q) : py_sum xs / len xs == mean xs.
Proof. unfold mean, len. rewrite py_sum_fold_right. reflexivity. Qed.

End NumFacts.

(** ** The adaptive difficulty chain and early termination *)

Section Adaptive.

Import Num InterviewEngine Reference.
Local Open Scope Q_scope.






Lemma last_three_app {A} (pre : list A) (a b c : A) :
  last_three (pre ++ [a; b; c]) = [a; b; c].
Proof.
  unfold last_three. rewrite length_app. simpl List.length.
  replace (List.length pre + 3 - 3)%nat with (List.length pre + 0)%nat by lia.
  rewrite skipn_app, Nat.add_0_r, skipn_all.
  replace (List.length pre - List.length pre)%nat with 0%nat by lia.
  reflexivity.
Qed.



End Adaptive.

(** ** The time-efficiency score *)

Section TimeScore.

Import Num ScoringEngine Reference.
Local Open Scope Q_scope.

Lemma Qleb_inject (a b : Z) : (inject_Z a <=? inject_Z b) = (a <=? b)%Z.
Proof.
  unfold Qleb, Qle_bool. simpl. rewrite !Z.mul_1_r. reflexivity.
Qed.

(* Integer constants as literals of [Q], for [field]. *)
Ltac q_consts :=
  repeat match goal with
    | |- context [inject_Z (Zpos ?p)] =>
        change (inject_Z (Zpos p)) with (Zpos p # 1)
    | |- context [inject_Z (Zneg ?p)] =>
        change (inject_Z (Zneg p)) with (Zneg p # 1)
    end.

Lemma py_int_comp (x y : Q) : x == y -> py_int x = py_int y.
Proof.
  intros H. unfold py_int, Qleb.
  rewrite (Qfloor_comp x y H), (Qceiling_comp x y H), H. reflexivity.
Qed.

(** On a non-negative quotient of integers [int] is the integer division. *)
Lemma py_int_div (a : Z) (b : positive) :
  (0 <= a)%Z -> py_int (inject_Z a / inject_Z (Zpos b)) = (a / Zpos b)%Z.
Proof.
  intros Ha. unfold py_int.
  assert (H : (0 <=? inject_Z a / inject_Z (Z.pos b)) = true).
  { apply Qle_bool_iff. apply Qle_shift_div_l.
    - change 0 with (inject_Z 0). rewrite <- Zlt_Qlt. lia.
    - rewrite Qmult_0_l. change 0 with (inject_Z 0). rewrite <- Zle_Qle. lia. }
  rewrite H. symmetry. apply Zdiv_Qdiv.
Qed.


Lemma time_score_60_eq (s : Z) :
  _calculate_time_score s 60 = time_score_60 s.
Proof.
  unfold _calculate_time_score, time_score_60.
  destruct (s <=? 0)%Z eqn:H0; [reflexivity|]. apply Z.leb_gt in H0.
  assert (Hmin : inject_Z 60 * 0.6 == inject_Z 36) by reflexivity.
  assert (Hmax : inject_Z 60 * 0.8 == inject_Z 48) by reflexivity.
  unfold Qltb, Qleb. rewrite !Hmin, !Hmax.
  fold (Qleb (inject_Z 36) (inject_Z s)) (Qleb (inject_Z s) (inject_Z 48)).
  rewrite !Qleb_inject, (Z.ltb_antisym 36 s).
  destruct (36 <=? s)%Z eqn:H36; cbn [andb negb].
  - apply Z.leb_le in H36.
    destruct (s <=? 48)%Z eqn:H48; [reflexivity|]. apply Z.leb_gt in H48.
    destruct (s <=? 60)%Z eqn:H60.
    + apply Z.leb_le in H60.
      rewrite <- (py_int_div (a := 1200 - 20 * (s - 48)) 12) by lia.
      apply py_int_comp.
      rewrite Hmax.
      unfold Zminus.
      rewrite !inject_Z_plus, inject_Z_opp, inject_Z_mult, inject_Z_plus.
      change (inject_Z (- (48))) with (- (48 # 1)).
      q_consts. field.
    + apply Z.leb_gt in H60.
      change 10 with (inject_Z 10).
      rewrite py_int_div by lia. reflexivity.
  - apply Z.leb_gt in H36.
    rewrite <- (py_int_div (a := s * 100) 36) by lia.
    apply py_int_comp. rewrite Hmin, inject_Z_mult. q_consts. field.
Qed.

Ltac div_lia := Z.to_euclidean_division_equations; lia.

Lemma time_score_60_mono_up (a b : Z) :
  (0 <= a <= b)%Z -> (b <= 36)%Z -> (time_score_60 a <= time_score_60 b)%Z.
Proof.
  intros Hab Hb. unfold time_score_60.
  repeat match goal with
    | |- context [(?x <=? ?y)%Z] => destruct (Z.leb_spec x y)
    | |- context [(?x <? ?y)%Z] => destruct (Z.ltb_spec x y)
    end; try lia; div_lia.
Qed.

Lemma time_score_60_mono_down (a b : Z) :
  (48 <= a <= b)%Z -> (time_score_60 b <= time_score_60 a)%Z.
Proof.
  intros Hab. unfold time_score_60.
  repeat match goal with
    | |- context [(?x <=? ?y)%Z] => destruct (Z.leb_spec x y)
    | |- context [(?x <? ?y)%Z] => destruct (Z.ltb_spec x y)
    end; try lia; div_lia.
Qed.

Lemma time_score_60_full (s : Z) :
  time_score_60 s = 100%Z <-> (36 <= s <= 48)%Z.
Proof.
  unfold time_score_60.
  repeat match goal with
    | |- context [(?x <=? ?y)%Z] => destruct (Z.leb_spec x y)
    | |- context [(?x <? ?y)%Z] => destruct (Z.ltb_spec x y)
    end; split; intros; try lia; div_lia.
Qed.

(** C2. The time-efficiency score for a limit of 60 seconds, as a function
    of the whole number s of seconds taken: 0 for s <= 0; 100 exactly on
    [36, 48]; (s/36)*100 truncated below 36; 100 less 20 times
    (s-48)/(60-48), truncated, which stays within 20 points of 100, for
    48 < s <= 60; max(0, 50 - (s-60)/10 truncated) above 60; non-decreasing
    on [0, 36] and non-increasing from 48 on. *)
Theorem time_efficiency_60 :
  let f := fun s => _calculate_time_score s 60 in
  (forall s, (s <= 0)%Z -> f s = 0%Z) /\
  (forall s, f s = 100%Z <-> (36 <= s <= 48)%Z) /\
  (forall s, (0 < s < 36)%Z -> f s = py_int (inject_Z s / 36 * 100)) /\
  (forall s, (48 < s <= 60)%Z ->
     f s = py_int (100 - (inject_Z s - 48) / (60 - 48) * 20) /\
     (80 <= f s < 100)%Z) /\
  (forall s, (60 < s)%Z ->
     f s = Z.max 0 (50 - py_int ((inject_Z s - 60) / 10))) /\
  (forall a b, (0 <= a <= b)%Z -> (b <= 36)%Z -> (f a <= f b)%Z) /\
  (forall a b, (48 <= a <= b)%Z -> (f b <= f a)%Z).
Proof.
  cbn zeta.
  split; [|split; [|split; [|split; [|split; [|split]]]]].
  - intros s Hs. rewrite time_score_60_eq. unfold time_score_60.
    destruct (Z.leb_spec s 0); [reflexivity | lia].
  - intros s. rewrite time_score_60_eq. apply time_score_60_full.
  - intros s Hs. rewrite time_score_60_eq. unfold time_score_60.
    destruct (Z.leb_spec s 0); [lia|].
    destruct (Z.ltb_spec s 36); [|lia].
    rewrite <- (py_int_div (a := s * 100) 36) by lia.
    apply py_int_comp. rewrite inject_Z_mult. q_consts. field.
  - intros s Hs. rewrite time_score_60_eq. unfold time_score_60.
    destruct (Z.leb_spec s 0); [lia|].
    destruct (Z.ltb_spec s 36); [lia|].
    destruct (Z.leb_spec s 48); [lia|].
    destruct (Z.leb_spec s 60); [|lia].
    split; [|div_lia].
    rewrite <- (py_int_div (a := 1200 - 20 * (s - 48)) 12) by lia.
    apply py_int_comp. unfold Zminus.
    rewrite !inject_Z_plus, inject_Z_opp, inject_Z_mult, inject_Z_plus.
    change (inject_Z (- (48))) with (- (48 # 1)).
    q_consts. field.
  - intros s Hs. rewrite time_score_60_eq. unfold time_score_60.
    destruct (Z.leb_spec s 0); [lia|].
    destruct (Z.ltb_spec s 36); [lia|].
    destruct (Z.leb_spec s 48); [lia|].
    destruct (Z.leb_spec s 60); [lia|].
    rewrite <- (py_int_div (a := s - 60) 10) by lia.
    do 2 f_equal. apply py_int_comp. unfold Zminus.
    rewrite inject_Z_plus. reflexivity.
  - intros a b Hab Hb. rewrite !time_score_60_eq.
    now apply time_score_60_mono_up.
  - intros a b Hab. rewrite !time_score_60_eq.
    now apply time_score_60_mono_down.
Qed.

End TimeScore.





(** ** The guard of the scorer *)

Section Guard.

Import PyStr ScoringEngine.
Local Open Scope string_scope.

(** C4. Whatever the question, the expected topics and the times, an answer
    that is empty or whose length after [strip] is below 10 gets the
    all-zero score with the feedback "Answer is too short or empty."; the
    zeros are the literal ones of the guard, no metric is computed. *)
Theorem score_answer_too_short
  (question answer : string) (expected_topics : list string)
  (time_taken max_time : Z) :
  answer = "" \/ (String.length (strip answer) < 10)%nat ->
  score_answer question answer expected_topics time_taken max_time
  = {| accuracy := 0; clarity := 0; depth := 0; relevance := 0;
       time_efficiency := 0; overall := 0;
       feedback := "Answer is too short or empty." |}.
Proof.
  intros H. unfold score_answer.
  assert (Hshort : too_short answer = true).
  { unfold too_short. destruct H as [-> | H].
    - reflexivity.
    - apply Nat.ltb_lt in H. rewrite H. apply orb_true_r. }
  rewrite Hshort. reflexivity.
Qed.

Lemma score_answer_too_short_witness :
  (String.length (strip "  I agree.   ") < 10)%nat /\
  score_answer "Explain core concepts of Java." "  I agree.   "
               ["Java"; "conceptual"; "easy"] 42 60
  = {| accuracy := 0; clarity := 0; depth := 0; relevance := 0;
       time_efficiency := 0; overall := 0;
       feedback := "Answer is too short or empty." |}.
Proof.
  split.
  - vm_compute. lia.
  - apply score_answer_too_short. right. vm_compute. lia.
Defined.

End Guard.

(** ** The question counter of a session *)

Section Session.

Import InterviewEngine ScoringEngine Main Reference.
Local Open Scope Z_scope.


Lemma adjust_difficulty_counts (self : engine) (scores : list Q) :
  question_count (fst (adjust_difficulty self scores)) = question_count self /\
  max_questions (fst (adjust_difficulty self scores)) = max_questions self.
Proof.
  unfold adjust_difficulty. destruct scores as [|x xs]; [split; reflexivity|].
  destruct (Num.Qltb 75 _); [|destruct (Num.Qltb _ 40)];
    destruct (current_difficulty self); split; reflexivity.
Qed.

Lemma conduct_interview_counts (self : engine) (resume : ResumeData)
      (jd : JDData) (ds dt : nat) :
  let r := conduct_interview self resume jd ds dt in
  question_count (fst r) = question_count self + 1 /\
  max_questions (fst r) = max_questions self /\
  question_number (snd r) = question_count self + 1.
Proof.
  cbn zeta. unfold conduct_interview.
  destruct (generate_question _ _ _ _ _ _). repeat split.
Qed.

Lemma rev_nonempty {A} (xs : list A) :
  xs <> [] -> exists x rest, rev xs = x :: rest.
Proof.
  intros H. destruct (rev xs) as [|x rest] eqn:E.
  - apply (f_equal (@rev A)) in E. rewrite rev_involutive in E.
    simpl in E. contradiction.
  - eauto.
Qed.

(** One [submit_answer] on a started interview: it answers, and the counter
    moves only on [Continue]. *)
Lemma submit_answer_started (s : SessionData) (e : engine) (a : Answer)
      (ds dt : nat) :
  started s e ->
  exists s' e' r,
    submit_answer s a ds dt = Ok (s', r) /\
    started s' e' /\
    match r with
    | Continue _ q _ =>
        should_terminate_early (map overall (scores s')) = false /\
        question_count e < 10 /\
        question_count e' = question_count e + 1 /\
        question_number q = question_count e'
    | Complete _ _ _ early =>
        question_count e' = question_count e /\
        early = should_terminate_early (map overall (scores s')) /\
        (early = false -> question_count e = 10)
    end.
Proof.
  intros (He & Hs & Hr & Hj & Hq & Hc & Hm).
  destruct (rev_nonempty Hq) as (cq & rest & Hrev).
  unfold submit_answer. rewrite He, Hs, Hrev.
  set (score := score_answer _ _ _ _ _).
  destruct (should_terminate_early (map overall (scores s ++ [score]))) eqn:Hterm.
  - eexists _, e, _. split; [reflexivity|]. cbn.
    split; [repeat split; auto; lia|]. repeat split; auto. discriminate.
  - destruct (max_questions e <=? question_count e) eqn:Hmax.
    + eexists _, e, _. split; [reflexivity|]. cbn.
      split; [repeat split; auto; lia|]. repeat split; auto.
      intros _. apply Z.leb_le in Hmax. lia.
    + apply Z.leb_gt in Hmax.
      pose proof (adjust_difficulty_counts e (map overall (scores s ++ [score])))
        as [Hc1 Hm1].
      destruct (adjust_difficulty e _) as [e1 nd]. cbn [fst] in Hc1, Hm1.
      destruct (resume_data s) as [resume|]; [|contradiction].
      destruct (jd_data s) as [jd|]; [|contradiction].
      pose proof (conduct_interview_counts e1 resume jd ds dt) as (Hc2 & Hm2 & Hn).
      destruct (conduct_interview e1 resume jd ds dt) as [e2 nq].
      cbn [fst snd] in Hc2, Hm2, Hn.
      eexists _, e2, _. split; [reflexivity|]. cbn.
      split.
      * repeat split; auto; try discriminate; try lia.
        intros H. apply app_eq_nil in H. destruct H; discriminate.
      * repeat split; auto; lia.
Qed.

Lemma start_interview_started (s0 s1 : SessionData) (ds dt : nat)
      (q : QuestionData) :
  start_interview s0 ds dt = Ok (s1, q) -> exists e, started s1 e.
Proof.
  unfold start_interview.
  destruct (resume_data s0) as [resume|] eqn:Hr; [|discriminate].
  destruct (jd_data s0) as [jd|] eqn:Hj; [|discriminate].
  pose proof (conduct_interview_counts init resume jd ds dt) as (Hc & Hm & Hn).
  destruct (conduct_interview init resume jd ds dt) as [e1 q1].
  cbn [fst snd] in Hc, Hm, Hn.
  intros H. injection H as <- <-. exists e1.
  unfold started. cbn. rewrite Hc, Hm. cbn.
  repeat split; try discriminate; try lia.
  intros H. apply app_eq_nil in H. destruct H; discriminate.
Qed.

Lemma reachable_started (s : SessionData) :
  reachable s -> exists e, started s e.
Proof.
  induction 1 as [s0 s1 ds dt q Hstart | s s' a ds dt r Hreach IH Hsub].
  - exact (start_interview_started _ _ _ Hstart).
  - destruct IH as [e He].
    destruct (submit_answer_started a ds dt He) as (s2 & e2 & r2 & Heq & Hst & _).
    rewrite Heq in Hsub. injection Hsub as <- <-. eauto.
Qed.

(** C5. In every session reached by [start_interview] followed by any
    answers, the counter of the engine is at most [max_questions], which is
    10.  Each further [submit_answer] answers; when the early-termination
    check holds the interview is complete with early termination whatever
    the counter; otherwise it is complete when the counter has reached 10;
    a further question, which adds one to the counter, comes only when the
    early-termination check fails and the counter is below 10. *)
Theorem question_count_bounded (s : SessionData) :
  reachable s ->
  exists e,
    interview_engine s = Some e /\
    question_count e <= max_questions e /\
    max_questions e = 10 /\
    forall (a : Answer) (ds dt : nat),
    exists s' e' r,
      submit_answer s a ds dt = Ok (s', r) /\
      interview_engine s' = Some e' /\
      question_count e' <= 10 /\
      match r with
      | Continue _ q _ =>
          should_terminate_early (map overall (scores s')) = false /\
          question_count e < 10 /\
          question_count e' = question_count e + 1 /\
          question_number q = question_count e'
      | Complete _ _ _ early =>
          question_count e' = question_count e /\
          early = should_terminate_early (map overall (scores s')) /\
          (early = false -> question_count e = 10)
      end.
Proof.
  intros Hreach. destruct (reachable_started Hreach) as [e He].
  exists e. pose proof He as (Heng & _ & _ & _ & _ & Hc & Hm).
  repeat split; [exact Heng | lia | exact Hm |].
  intros a ds dt.
  destruct (submit_answer_started a ds dt He) as (s' & e' & r & Heq & Hst & Hr).
  exists s', e', r. destruct Hst as (Heng' & _ & _ & _ & _ & Hc' & _).
  repeat split; [exact Heq | exact Heng' | lia | exact Hr].
Qed.

Lemma question_count_bounded_witness :
  reachable started_session /\
  exists e,
    interview_engine started_session = Some e /\
    question_count e <= max_questions e /\
    max_questions e = 10.
Proof.
  assert (H : reachable started_session).
  { apply (@reach_start uploaded_session started_session 0 0
             {| question_number := 1;
                question := "What is Python and where have you used it?";
                expected_topics := ["Python"; "technical"; "easy"]%string;
                difficulty := easy;
                question_type := technical;
                q_max_questions := 10;
                time_limit := 60 |}).
    reflexivity. }
  split; [exact H|].
  destruct (question_count_bounded H) as (e & He & Hc & Hm & _).
  exists e. auto.
Defined.

End Session.

(** ** The final report *)

Section FinalReport.

Import Num ScoringEngine Reference.
Local Open Scope string_scope.
Local Open Scope Q_scope.


#[local] Instance Qltb_proper : Proper (Qeq ==> Qeq ==> eq) Qltb.
Proof. intros x x' Hx y y' Hy. unfold Qltb. rewrite Hx, Hy. reflexivity. Qed.

#[local] Instance round_half_even_proper : Proper (Qeq ==> eq) round_half_even.
Proof.
  intros x y H. unfold round_half_even.
  rewrite (Qfloor_comp x y H).
  assert (Hd : x - inject_Z (Qfloor y) == y - inject_Z (Qfloor y))
    by (rewrite H; reflexivity).
  cbv zeta.
  rewrite (Qltb_proper Hd (Qeq_refl (1 # 2))).
  rewrite (Qltb_proper (Qeq_refl (1 # 2)) Hd).
  reflexivity.
Qed.

#[local] Instance round2_proper : Proper (Qeq ==> eq) round2.
Proof.
  intros x y H. unfold round2.
  assert (H100 : x * 100 == y * 100) by (rewrite H; reflexivity).
  rewrite (round_half_even_proper H100). reflexivity.
Qed.

Lemma loop_mean_metric_mean (all_scores : list AnswerScore) (m : Metric) :
  loop_mean all_scores m == metric_mean m all_scores.
Proof. apply py_mean. Qed.

Lemma average_scores_cons (a : AnswerScore) (l : list AnswerScore) :
  average_scores (a :: l)
  = map (fun m => (m, loop_mean (a :: l) m)) (sub_metrics ++ [Overall])%list.
Proof. reflexivity. Qed.

Lemma display_readable (m : Metric) : display m = readable m.
Proof. destruct m; reflexivity. Qed.

(** The comprehension that names the metrics on one side of a threshold. *)
Lemma named_metrics (P : Q -> bool) (means : Metric -> Q) (ms : list Metric) :
  map (fun e : Metric * Q => display (fst e))
      (filter (fun e : Metric * Q => negb (metric_eqb (fst e) Overall) && P (snd e))
              (map (fun m => (m, means m)) ms))
  = map readable
        (filter (fun m => negb (metric_eqb m Overall) && P (means m)) ms).
Proof.
  induction ms as [|m ms IH]; [reflexivity|].
  cbn [map filter fst snd].
  destruct (negb (metric_eqb m Overall) && P (means m)); cbn [map fst];
    rewrite IH, ?display_readable; reflexivity.
Qed.

Lemma named_sub_metrics (P : Q -> bool) (means : Metric -> Q) :
  filter (fun m => negb (metric_eqb m Overall) && P (means m))
         (sub_metrics ++ [Overall])%list
  = filter (fun m => P (means m)) sub_metrics.
Proof.
  unfold sub_metrics. cbn [app filter metric_eqb negb andb].
  repeat match goal with
    | |- context [P (means ?m)] => destruct (P (means m))
    end; reflexivity.
Qed.

Lemma lookup_overall (means : Metric -> Q) :
  lookup Overall (map (fun m => (m, means m)) (sub_metrics ++ [Overall])%list)
  = means Overall.
Proof. reflexivity. Qed.

Lemma calculate_final_score_cons (a : AnswerScore) (l : list AnswerScore) :
  calculate_final_score (a :: l)
  = report_of_means (loop_mean (a :: l)) (List.length (a :: l)).
Proof.
  unfold calculate_final_score. rewrite average_scores_cons. cbv zeta.
  rewrite (named_metrics (fun x => 75 <=? x)).
  rewrite (named_metrics (fun x => x <? 50)).
  rewrite lookup_overall.
  rewrite (named_sub_metrics (fun x => 75 <=? x)).
  rewrite (named_sub_metrics (fun x => x <? 50)).
  unfold report_of_means.
  destruct (80 <=? loop_mean (a :: l) Overall);
    [|destruct (65 <=? loop_mean (a :: l) Overall);
      [|destruct (50 <=? loop_mean (a :: l) Overall)]];
    rewrite map_map; reflexivity.
Qed.




End FinalReport.

(** ** Years of experience *)

Section Experience.

Import PyStr Re Reference.
Local Open Scope string_scope.
Local Open Scope Z_scope.

Lemma fold_max_ge_init (l : list Z) (a : Z) : a <= fold_left Z.max l a.
Proof.
  revert a. induction l as [|x l IH]; intros a; simpl; [lia|].
  specialize (IH (Z.max a x)). lia.
Qed.

Lemma fold_max_upper (l : list Z) (a c : Z) :
  In c l -> c <= fold_left Z.max l a.
Proof.
  revert a. induction l as [|x l IH]; intros a Hc; simpl; [contradiction|].
  destruct Hc as [Hc|Hc].
  - subst x. pose proof (fold_max_ge_init l (Z.max a c)). lia.
  - now apply IH.
Qed.

Lemma fold_max_attained (l : list Z) (a : Z) :
  fold_left Z.max l a = a \/ In (fold_left Z.max l a) l.
Proof.
  revert a. induction l as [|x l IH]; intros a; simpl; [now left|].
  destruct (IH (Z.max a x)) as [H|H]; [|now right; right].
  rewrite H. destruct (Z.max_spec a x) as [[_ ->]|[_ ->]]; auto.
Qed.

Lemma fold_max_map {A} (f : A -> Z) (l : list A) (a : Z) :
  fold_left (fun acc x => Z.max acc (f x)) l a = fold_left Z.max (map f l) a.
Proof. revert a. induction l as [|x l IH]; intros a; simpl; auto. Qed.

Lemma fold_max_flat_map {A} (F : A -> list Z) (l : list A) (a : Z) :
  fold_left (fun acc x => fold_left Z.max (F x) acc) l a
  = fold_left Z.max (flat_map F l) a.
Proof.
  revert a. induction l as [|x l IH]; intros a; simpl; [reflexivity|].
  rewrite fold_left_app. apply IH.
Qed.

Lemma fold_left_pointwise {A B} (f g : A -> B -> A) (l : list B) (a : A) :
  (forall acc x, f acc x = g acc x) -> fold_left f l a = fold_left g l a.
Proof.
  intros H. revert a. induction l as [|x l IH]; intros a; simpl;
    [reflexivity | rewrite H; apply IH].
Qed.

Lemma scan_years_max (text : string) :
  JDParser.scan_years text = fold_left Z.max (jd_captures text) 0.
Proof.
  unfold JDParser.scan_years, jd_captures, all_captures.
  rewrite <- fold_max_flat_map.
  apply fold_left_pointwise. intros acc p. apply fold_max_map.
Qed.

Lemma extract_experience_max (text : string) :
  ResumeParser.extract_experience text
  = fold_left Z.max (resume_captures text) 0.
Proof.
  unfold ResumeParser.extract_experience, resume_captures.
  rewrite <- fold_max_flat_map.
  apply fold_left_pointwise. intros acc p.
  destruct (search p (lower text)); reflexivity.
Qed.

Lemma int_nonneg (s : string) : 0 <= int s.
Proof.
  unfold int.
  assert (H : forall l a, 0 <= a ->
            0 <= fold_left (fun acc c => acc * 10 + Z.of_nat (code c - 48)) l a).
  { induction l as [|c l IH]; intros a Ha; simpl; [assumption|].
    apply IH. lia. }
  apply H. lia.
Qed.

Lemma resume_captures_nonneg (text : string) (c : Z) :
  In c (resume_captures text) -> 0 <= c.
Proof.
  unfold resume_captures. rewrite in_flat_map.
  intros (p & _ & Hc). destruct (search p (lower text)); [|contradiction].
  destruct Hc as [<-|[]]. apply int_nonneg.
Qed.

(** C7, as the code has it.  The job-description parser returns the
    greatest number captured over all matches of its four patterns when that
    number is positive, and 2 otherwise: when no pattern matches, and also
    when only zeros are captured.  The resume parser has three patterns of
    its own and reads, for each, the leftmost match only: it returns the
    greatest of the numbers so captured, and 0 when no pattern matches. *)
Theorem experience_years_extraction (text : string) :
  let required := JDParser.extract_experience_required text in
  let years := ResumeParser.extract_experience text in
  ((exists c, In c (jd_captures text) /\ 0 < c) ->
   In required (jd_captures text) /\
   forall c, In c (jd_captures text) -> c <= required) /\
  ((forall c, In c (jd_captures text) -> c <= 0) -> required = 2) /\
  (resume_captures text <> [] ->
   In years (resume_captures text) /\
   forall c, In c (resume_captures text) -> c <= years) /\
  (resume_captures text = [] -> years = 0).
Proof.
  cbn zeta. unfold JDParser.extract_experience_required.
  rewrite scan_years_max, extract_experience_max.
  set (caps := jd_captures text). set (firsts := resume_captures text).
  split; [|split; [|split]].
  - intros (c & Hc & Hpos).
    pose proof (fold_max_upper caps 0 c Hc) as Hup.
    destruct (Z.ltb_spec 0 (fold_left Z.max caps 0)); [|lia].
    split.
    + destruct (fold_max_attained caps 0) as [E|E]; [lia | exact E].
    + intros c' Hc'. now apply fold_max_upper.
  - intros Hall.
    destruct (Z.ltb_spec 0 (fold_left Z.max caps 0)) as [Hlt|]; [|reflexivity].
    destruct (fold_max_attained caps 0) as [E|E]; [lia|].
    specialize (Hall _ E). lia.
  - intros Hne. split.
    + destruct (fold_max_attained firsts 0) as [E|E]; [|exact E].
      destruct firsts as [|c l] eqn:Hf; [contradiction|].
      assert (Hc : In c firsts) by (rewrite Hf; now left).
      pose proof (resume_captures_nonneg text c Hc) as H0.
      rewrite <- Hf in *.
      pose proof (fold_max_upper firsts 0 c Hc) as Hup.
      assert (c = 0) by lia. subst c. rewrite E. exact Hc.
    + intros c Hc. now apply fold_max_upper.
  - intros ->. reflexivity.
Qed.

(** The resume parser reads the leftmost match of a pattern only. *)
Example extract_experience_leftmost :
  all_captures ResumeParser.exp_patterns
               "10 years of experience; 12 years of experience" = [10; 12] /\
  resume_captures "10 years of experience; 12 years of experience" = [10] /\
  ResumeParser.extract_experience
    "10 years of experience; 12 years of experience" = 10.
Proof. repeat split; vm_compute; reflexivity. Qed.

(** The extraction as stated holds of neither parser: on a resume where
    nothing matches the years are 0, not 2; and a job description asking
    for "0 years of experience" gets 2, which no pattern captured. *)
Lemma experience_years_counterexample :
  ~ stated_extraction ResumeParser.exp_patterns
                      ResumeParser.extract_experience /\
  ~ stated_extraction JDParser.patterns
                      JDParser.extract_experience_required.
Proof.
  split; intros H.
  - destruct (H "") as [H0 _]. specialize (H0 eq_refl).
    vm_compute in H0. discriminate.
  - destruct (H "0 years of experience") as [_ H1].
    assert (Hne : all_captures JDParser.patterns "0 years of experience" <> [])
      by (vm_compute; discriminate).
    destruct (H1 Hne) as [Hin _]. vm_compute in Hin.
    destruct Hin as [Hin|[]]. discriminate.
Qed.

End Experience.

(** ** Matching a vocabulary term *)

Section SkillMatch.

Import PyStr Re Vocabulary Reference.
Local Open Scope string_scope.

Lemma last_char_cons (c : ascii) (t : string) (p q : option ascii) :
  last_char (String c t) p = last_char (String c t) q.
Proof. reflexivity. Qed.

Lemma prefix_head (c : ascii) (t s : string) :
  prefix (String c t) s = true -> head s = Some c.
Proof.
  destruct s as [|c0 s']; simpl; [discriminate|].
  destruct (Ascii.eqb_spec c c0); [subst; reflexivity | discriminate].
Qed.

(** A literal text matches exactly where it is a prefix. *)
Lemma run_Str {R} (t : string) (prev : option ascii) (s : string)
      (cap : option string) (k : cont R) :
  run (Str t) prev s cap k
  = if prefix t s
    then k (last_char t prev) (drop (String.length t) s) cap
    else None.
Proof.
  revert prev s. induction t as [|c t IH]; intros prev s.
  - reflexivity.
  - cbn [Str run Lit]. destruct s as [|c0 s']; [reflexivity|].
    cbn [prefix String.length drop last_char].
    destruct (Ascii.eqb_spec c c0) as [->|Hne]; [|reflexivity].
    cbn [andb]. apply IH.
Qed.

Lemma match_here_skill_pattern (term : string) (prev : option ascii)
      (s : string) :
  is_match (match_here (skill_pattern term) prev s)
  = boundary_match_here term prev s.
Proof.
  unfold match_here, skill_pattern, boundary_match_here.
  cbn [run]. destruct (xorb (word_opt prev) (word_opt (head s))); [|reflexivity].
  rewrite run_Str. destruct (prefix term s); [|reflexivity].
  cbn [andb]. destruct (xorb _ _); reflexivity.
Qed.

Lemma search_from_skill_pattern (term : string) (prev : option ascii)
      (s : string) :
  is_match (search_from (skill_pattern term) prev s)
  = boundary_match_here term prev s
    || match s with
       | EmptyString => false
       | String c s' => is_match (search_from (skill_pattern term) (Some c) s')
       end.
Proof.
  destruct s as [|c s']; cbn [search_from];
    rewrite <- match_here_skill_pattern;
    destruct (match_here (skill_pattern term) prev _); reflexivity.
Qed.

Lemma boundary_whole_word_here (term : string) (prev : option ascii)
      (s : string) :
  word_edged term = true ->
  boundary_match_here term prev s = whole_word_here term prev s.
Proof.
  unfold word_edged, boundary_match_here, whole_word_here.
  destruct term as [|c t]; [discriminate|].
  intros H. apply andb_true_iff in H. destruct H as [Hfirst Hlast].
  destruct (prefix (String c t) s) eqn:Hp.
  - rewrite (prefix_head _ _ _ Hp).
    rewrite (last_char_cons c t prev None).
    cbn [head] in Hfirst. rewrite Hfirst, Hlast.
    destruct (word_opt prev), (word_opt (head (drop _ s))); reflexivity.
  - rewrite !andb_false_r. reflexivity.
Qed.

(** For a term that begins and ends with a word character the search is the
    whole-word test, in any text. *)
Lemma search_whole_word (term text : string) :
  word_edged term = true ->
  is_match (search (skill_pattern term) text) = whole_word term text.
Proof.
  intros H. unfold search, whole_word. generalize (@None ascii) as prev.
  induction text as [|c s IH]; intros prev;
    rewrite search_from_skill_pattern; cbn [whole_word_from];
    rewrite (boundary_whole_word_here _ _ _ H); [reflexivity|].
  rewrite IH. reflexivity.
Qed.

Lemma found_skills_filter (P : string -> bool) (terms found : list string) :
  fold_left (fun found term =>
               if P term then (found ++ [title term])%list else found)
            terms found
  = (found ++ map title (filter P terms))%list.
Proof.
  revert found. induction terms as [|t ts IH]; intros found; simpl.
  - now rewrite app_nil_r.
  - rewrite IH. destruct (P t); [|reflexivity].
    simpl. rewrite <- app_assoc. reflexivity.
Qed.

Lemma scan_skills_from (text : string)
      (vocabulary : list (string * list string)) (acc : SkillProfile) :
  fold_left
    (fun (extracted_skills : SkillProfile) (entry : string * list string) =>
       let (category, skills) := entry in
       let found_skills :=
         fold_left
           (fun found_skills skill =>
              if is_match (search (skill_pattern skill) (lower text))
              then (found_skills ++ [title skill])%list
              else found_skills)
           skills [] in
       match found_skills with
       | [] => extracted_skills
       | _ :: _ => (extracted_skills ++ [(category, found_skills)])%list
       end)
    vocabulary acc
  = (acc ++ flat_map (reported text) vocabulary)%list.
Proof.
  revert acc. induction vocabulary as [|[category terms] v IH]; intros acc.
  - cbn. now rewrite app_nil_r.
  - cbn [fold_left flat_map]. rewrite IH, app_assoc. f_equal.
    rewrite found_skills_filter. cbn [app].
    unfold reported, found_in_category, term_found. cbn [fst snd].
    destruct (map title _); [now rewrite app_nil_r | reflexivity].
Qed.

(** The two nested loops: the categories in the order of the vocabulary,
    each with its terms found, title-cased, in the order of the vocabulary;
    a category with no term found is left out. *)
Lemma scan_skills_categories (vocabulary : list (string * list string))
      (text : string) :
  scan_skills vocabulary text = flat_map (reported text) vocabulary.
Proof. unfold scan_skills. apply scan_skills_from. Qed.

(** What holds of the whole-word matching: "java" is found as a word of its
    own, in any case, and not inside "javascript"; nothing is found in the
    empty text. *)
Example extract_skills_java :
  ResumeParser.extract_skills "Java and java" = [("languages", ["Java"])] /\
  ResumeParser.extract_skills "JavaScript" = [("languages", ["Javascript"])] /\
  ResumeParser.extract_skills "" = [] /\
  JDParser.extract_required_skills "" = [].
Proof. repeat split; vm_compute; reflexivity. Qed.

(** C8, at an input the code gets wrong: "C++" stands as a word of its own
    between a space and a comma, and neither parser reports it. *)
Theorem extract_skills_omits_standalone_term :
  whole_word "c++" (lower "Skills: Python, C++, Java") = true /\
  ResumeParser.extract_skills "Skills: Python, C++, Java"
  = [("languages", ["Python"; "Java"])] /\
  JDParser.extract_required_skills "Skills: Python, C++, Java"
  = [("languages", ["Python"; "Java"])].
Proof. repeat split; vm_compute; reflexivity. Qed.

(** C10. The pattern of a term is the term between two [\b].  Where it
    matches, a term that ends with a character that is not a word character
    is followed by a word character, and a term that begins with such a
    character is preceded by one: neither white space nor the end or the
    start of the text will do.  "c++", "c#" and ".net" are such terms of the
    vocabulary, and "I write C++ daily", where "C++" is a word of its own,
    yields no skill at all. *)
Theorem symbol_edged_terms_missed :
  (forall (term : string) (prev : option ascii) (s : string),
     term <> "" ->
     is_match (match_here (skill_pattern term) prev s) = true ->
     (word_opt (last_char term None) = false ->
      word_opt (head (drop (String.length term) s)) = true) /\
     (word_opt (head term) = false -> word_opt prev = true)) /\
  (exists languages frameworks,
     In ("languages", languages) tech_skills /\
     In ("frameworks", frameworks) tech_skills /\
     In "c++" languages /\ word_opt (last_char "c++" None) = false /\
     In "c#" languages /\ word_opt (last_char "c#" None) = false /\
     In ".net" frameworks /\ word_opt (head ".net") = false) /\
  whole_word "c++" (lower "I write C++ daily") = true /\
  ResumeParser.extract_skills "I write C++ daily" = [] /\
  JDParser.extract_required_skills "I write C++ daily" = [].
Proof.
  split; [|split; [|repeat split; vm_compute; reflexivity]].
  - intros term prev s Hne Hm.
    rewrite match_here_skill_pattern in Hm. unfold boundary_match_here in Hm.
    apply andb_true_iff in Hm. destruct Hm as [Hm Hafter].
    apply andb_true_iff in Hm. destruct Hm as [Hbefore Hp].
    destruct term as [|c t]; [contradiction|].
    split.
    + intros Hlast. rewrite (last_char_cons c t prev None), Hlast in Hafter.
      exact Hafter.
    + intros Hfirst. rewrite (prefix_head _ _ _ Hp) in Hbefore.
      cbn [head] in Hfirst. rewrite Hfirst in Hbefore.
      destruct (word_opt prev); [reflexivity | discriminate].
  - eexists _, _.
    split; [left; reflexivity|].
    split; [right; left; reflexivity|].
    repeat split; try reflexivity; cbn; auto 20.
Qed.

End SkillMatch.

(** ** Question generation *)

Section Questions.

Import PyStr InterviewEngine Reference.
Local Open Scope string_scope.

Lemma dedup_In (x : string) (xs : list string) : In x (dedup xs) <-> In x xs.
Proof.
  induction xs as [|y ys IH]; [reflexivity|].
  cbn [dedup In]. rewrite filter_In, IH.
  destruct (String.eqb_spec y x) as [->|Hne].
  - split; auto.
  - split.
    + intros [H|[H _]]; auto.
    + intros [H|H]; [contradiction | right; auto].
Qed.

Lemma choice_In {A} (draw : nat) (xs : list A) (d : A) :
  xs <> [] -> In (choice draw xs d) xs.
Proof.
  intros H. unfold choice. apply nth_In.
  apply Nat.mod_upper_bound. destruct xs; [contradiction | discriminate].
Qed.

Lemma choice_any {A} (x : A) (xs : list A) (d : A) :
  In x xs -> exists draw, choice draw xs d = x.
Proof.
  intros H. destruct (In_nth xs x d H) as (n & Hn & Hx).
  exists n. unfold choice. rewrite Nat.mod_small by exact Hn. exact Hx.
Qed.

(** The templates for technical and conceptual questions have the field
    once; those for behavioral and scenario-based questions do not have it. *)
Lemma bank_fields (d : Difficulty) (qt : QuestionType) (t : string) :
  In t (QUESTION_BANK d qt) ->
  fields t = match qt with
             | technical | conceptual => 1%nat
             | behavioral | scenario_based => 0%nat
             end.
Proof.
  destruct d, qt; cbn [QUESTION_BANK In];
    intros [<-|[<-|[]]]; reflexivity.
Qed.

(** What [format] makes of a template of the bank: the skill in the place
    of the field when there is one, the template itself otherwise. *)
Lemma bank_format (d : Difficulty) (qt : QuestionType) (t skill : string) :
  In t (QUESTION_BANK d qt) ->
  match qt with
  | technical | conceptual =>
      t = before_field t ++ "{skill}" ++ after_field t /\
      format t skill = before_field t ++ skill ++ after_field t
  | behavioral | scenario_based => format t skill = t
  end.
Proof.
  destruct d, qt; cbn [QUESTION_BANK In]; intros [<-|[<-|[]]];
    try reflexivity; split; reflexivity.
Qed.

Lemma bank_two (d : Difficulty) (qt : QuestionType) :
  List.length (QUESTION_BANK d qt) = 2%nat.
Proof. destruct d, qt; reflexivity. Qed.

Lemma flatten_concat (d : SkillProfile) : flatten d = concat (map snd d).
Proof.
  unfold flatten.
  assert (H : forall acc : list string,
            fold_left (fun out entry => (out ++ snd entry)%list) d acc
            = (acc ++ concat (map snd d))%list).
  { induction d as [|e d IH]; intros acc; simpl.
    - now rewrite app_nil_r.
    - rewrite IH, app_assoc. reflexivity. }
  apply H.
Qed.

Lemma dedup_NoDup (xs : list string) : NoDup (dedup xs).
Proof.
  induction xs as [|x xs IH]; cbn [dedup]; constructor.
  - rewrite filter_In. intros [_ H]. rewrite String.eqb_refl in H. discriminate.
  - now apply NoDup_filter.
Qed.

(** C9, as the code has it.  The candidates are the skill strings of the
    resume and of the job description without repeats.  Whatever the two
    draws, the skill is one of them, or "programming" when there is none;
    the template is one of the two templates for the difficulty and the
    question type; the question is the template with the skill in the place
    of its replacement field, which the technical and the conceptual
    templates have once and the behavioral and the scenario-based templates
    do not have, so that their text is returned as it is; and the expected
    topics are the skill, the question type and the difficulty.  Every
    candidate and every template comes out of some draw. *)
Theorem generate_question_draws
  (resume_data : ResumeData) (jd_data : JDData)
  (d : Difficulty) (qt : QuestionType) :
  let candidates := dedup (all_skills resume_data jd_data) in
  let templates := QUESTION_BANK d qt in
  NoDup candidates /\
  (forall x, In x candidates <-> In x (all_skills resume_data jd_data)) /\
  List.length templates = 2%nat /\
  (forall draw_skill draw_template : nat,
   exists skill template,
     generate_question resume_data jd_data d qt draw_skill draw_template
     = (format template skill,
        [skill; question_type_name qt; difficulty_name d]) /\
     In template templates /\
     (candidates = [] -> skill = "programming") /\
     (candidates <> [] -> In skill candidates) /\
     match qt with
     | technical | conceptual =>
         fields template = 1%nat /\
         template = before_field template ++ "{skill}" ++ after_field template /\
         format template skill
         = before_field template ++ skill ++ after_field template
     | behavioral | scenario_based =>
         fields template = 0%nat /\ format template skill = template
     end) /\
  (forall skill template,
     In skill candidates -> In template templates ->
     exists draw_skill draw_template,
       generate_question resume_data jd_data d qt draw_skill draw_template
       = (format template skill,
          [skill; question_type_name qt; difficulty_name d])).
Proof.
  cbn zeta.
  assert (Hcomb :
            dedup (flatten (skills resume_data)
                   ++ flatten (required_skills jd_data))%list
            = dedup (all_skills resume_data jd_data))
    by (unfold all_skills; now rewrite !flatten_concat).
  assert (Htemplates : QUESTION_BANK d qt <> [])
    by (intros H; pose proof (bank_two d qt) as H2; rewrite H in H2;
        discriminate).
  split; [apply dedup_NoDup|].
  split; [intros x; apply dedup_In|].
  split; [apply bank_two|].
  split.
  - intros ds dt. unfold generate_question. rewrite Hcomb.
    set (candidates := dedup (all_skills resume_data jd_data)).
    set (template := choice dt (QUESTION_BANK d qt) EmptyString).
    assert (Hin : In template (QUESTION_BANK d qt))
      by (apply choice_In; exact Htemplates).
    pose proof (bank_fields d qt template Hin) as Hf.
    destruct candidates as [|c cs] eqn:Hc.
    + exists "programming", template.
      split; [reflexivity|]. split; [exact Hin|].
      split; [reflexivity|]. split; [congruence|].
      pose proof (bank_format d qt template "programming" Hin) as Hfmt.
      destruct qt; auto; destruct Hfmt; auto.
    + exists (choice ds (c :: cs) EmptyString), template.
      split; [reflexivity|]. split; [exact Hin|].
      split; [discriminate|].
      split; [intros _; apply choice_In; discriminate|].
      pose proof (bank_format d qt template
                              (choice ds (c :: cs) EmptyString) Hin) as Hfmt.
      destruct qt; auto; destruct Hfmt; auto.
  - intros skill template Hs Ht.
    destruct (choice_any skill _ EmptyString Hs) as [ds Hds].
    destruct (choice_any template _ EmptyString Ht) as [dt Hdt].
    exists ds, dt. unfold generate_question. rewrite Hcomb, Hdt.
    destruct (dedup (all_skills resume_data jd_data)) as [|c cs];
      [contradiction|].
    rewrite Hds. reflexivity.
Qed.

(** The bank has templates without any replacement field: the first
    behavioral template for easy questions is one, and the question made
    from it does not name the skill drawn. *)
Lemma bank_counterexample :
  ~ single_field_bank /\
  fields "Tell me about a project you enjoyed working on." = 0%nat /\
  generate_question (mkResume [("languages", ["Python"])]) (mkJD [])
                    easy behavioral 0 0
  = ("Tell me about a project you enjoyed working on.",
     ["Python"; "behavioral"; "easy"]).
Proof.
  split; [|split; reflexivity].
  intros H.
  specialize (H easy behavioral
                "Tell me about a project you enjoyed working on."
                (or_introl eq_refl)).
  discriminate.
Qed.

End Questions.

(** * Further properties of the code *)

From Stdlib Require Import Lqa Permutation.

(** ** The range of the scores *)

Section ScoreRange.

Import Num PyStr ScoringEngine.
Local Open Scope string_scope.
Local Open Scope Q_scope.

Lemma Qleb_le (x y : Q) : (x <=? y) = true <-> x <= y.
Proof. unfold Qleb. apply Qle_bool_iff. Qed.

Lemma Qleb_gt (x y : Q) : (x <=? y) = false <-> y < x.
Proof.
  unfold Qleb. split; intros H.
  - apply Qnot_le_lt. intros Hle. apply Qle_bool_iff in Hle. congruence.
  - destruct (Qle_bool x y) eqn:E; [|reflexivity].
    apply Qle_bool_iff in E. exfalso. exact (Qlt_not_le _ _ H E).
Qed.

(** [int] of a number between two whole numbers, the lower one not
    negative. *)
Lemma py_int_range (x : Q) (lo hi : Z) :
  (0 <= lo)%Z -> inject_Z lo <= x -> x <= inject_Z hi ->
  (lo <= py_int x <= hi)%Z.
Proof.
  intros Hlo Hl Hh. unfold py_int.
  assert (H0 : 0 <= x).
  { apply Qle_trans with (inject_Z lo); [|exact Hl].
    change 0 with (inject_Z 0). rewrite <- Zle_Qle. exact Hlo. }
  apply Qleb_le in H0. rewrite H0.
  split.
  - rewrite <- (Qfloor_Z lo). now apply Qfloor_resp_le.
  - rewrite <- (Qfloor_Z hi). now apply Qfloor_resp_le.
Qed.

Lemma ratio_range (a b : Q) : 0 < a -> a <= b -> 0 <= a / b <= 1.
Proof.
  intros Ha Hab.
  assert (Hb : 0 < b) by lra.
  split.
  - apply Qle_shift_div_l; [exact Hb | lra].
  - apply Qle_shift_div_r; [exact Hb | lra].
Qed.

Lemma ratio_below (a b : Q) : 0 < a -> a < b -> a / b < 1.
Proof.
  intros Ha Hab. apply Qlt_shift_div_r; lra.
Qed.

(** [int] of a number that is not negative and below a whole number. *)
Lemma py_int_below (x : Q) (hi : Z) :
  0 <= x -> x < inject_Z hi -> (0 <= py_int x < hi)%Z.
Proof.
  intros H0 Hh. unfold py_int.
  pose proof H0 as H0'. apply Qleb_le in H0'. rewrite H0'.
  split.
  - rewrite <- (Qfloor_Z 0). now apply Qfloor_resp_le.
  - pose proof (Qfloor_le x) as Hf.
    rewrite Zlt_Qlt. lra.
Qed.

(** The branches of [_calculate_time_score], each with the range of its
    results. *)
Lemma time_score_branches (time_taken max_time : Z) :
  let f := _calculate_time_score time_taken max_time in
  let t := inject_Z time_taken in
  let m := inject_Z max_time in
  ((time_taken <= 0)%Z /\ f = 0%Z) \/
  (0 < t /\ m * 0.6 <= t <= m * 0.8 /\ f = 100%Z) \/
  (0 < t /\ t < m * 0.6 /\ (0 <= f < 100)%Z) \/
  (m * 0.8 < t /\ t <= m /\ (80 <= f < 100)%Z) \/
  (0 < t /\ m < t /\ ~ (m * 0.6 <= t <= m * 0.8) /\ (0 <= f <= 50)%Z).
Proof.
  cbn zeta. unfold _calculate_time_score.
  destruct (Z.leb_spec time_taken 0) as [H0|H0]; [left; split; [lia|reflexivity]|].
  right.
  set (t := inject_Z time_taken). set (m := inject_Z max_time).
  assert (Ht : 0 < t)
    by (unfold t; change 0 with (inject_Z 0); rewrite <- Zlt_Qlt; lia).
  destruct ((m * 0.6 <=? t) && (t <=? m * 0.8)) eqn:Hwin.
  { apply andb_true_iff in Hwin. destruct Hwin as [H1 H2].
    apply Qleb_le in H1. apply Qleb_le in H2. left. auto. }
  right.
  destruct (t <? m * 0.6) eqn:Hlow.
  - apply Qltb_lt in Hlow. left.
    split; [exact Ht|]. split; [exact Hlow|].
    destruct (@ratio_range t (m * 0.6) Ht) as [Hr0 _]; [lra|].
    pose proof (@ratio_below t (m * 0.6) Ht Hlow) as Hr1.
    set (q := t / (m * 0.6)) in *. clearbody q.
    apply py_int_below; unfold inject_Z; lra.
  - apply Qltb_ge in Hlow. apply Qleb_le in Hlow. rewrite Hlow in Hwin.
    cbn [andb] in Hwin. apply Qleb_gt in Hwin. right.
    destruct (Z.leb_spec time_taken max_time) as [Hm|Hm].
    + assert (Htm : t <= m) by (unfold t, m; rewrite <- Zle_Qle; lia).
      left. split; [exact Hwin|]. split; [exact Htm|].
      destruct (@ratio_range (t - m * 0.8) (m - m * 0.8)) as [Hr0 Hr1];
        [lra | lra |].
      assert (Hpos : 0 < (t - m * 0.8) / (m - m * 0.8))
        by (apply Qlt_shift_div_l; lra).
      set (q := (t - m * 0.8) / (m - m * 0.8)) in *. clearbody q.
      assert (Hlo : (80 <= py_int (100 - q * 20) <= 100)%Z)
        by (apply py_int_range; [lia | |]; unfold inject_Z; lra).
      assert (Hhi : (0 <= py_int (100 - q * 20) < 100)%Z)
        by (apply py_int_below; unfold inject_Z; lra).
      lia.
    + assert (Htm : m < t) by (unfold t, m; rewrite <- Zlt_Qlt; lia).
      right. split; [exact Ht|]. split; [exact Htm|].
      split; [intros [_ H]; lra|].
      assert (Hd : (0 <=
                    py_int (inject_Z (time_taken - max_time) / 10))%Z).
      { unfold py_int.
        assert (Hq : 0 <= inject_Z (time_taken - max_time) / 10).
        { apply Qle_shift_div_l; [reflexivity|].
          rewrite Qmult_0_l. change 0 with (inject_Z 0).
          rewrite <- Zle_Qle. lia. }
        pose proof Hq as Hq'. apply Qleb_le in Hq'. rewrite Hq'.
        rewrite <- (Qfloor_Z 0). now apply Qfloor_resp_le. }
      lia.
Qed.

Lemma time_score_bounds (time_taken max_time : Z) :
  (0 <= _calculate_time_score time_taken max_time <= 100)%Z.
Proof.
  pose proof (time_score_branches time_taken max_time) as H. cbn zeta in H.
  destruct H as [[_ ->]|[(_ & _ & ->)|[(_ & _ & H)|[(_ & _ & H)|(_ & _ & _ & H)]]]];
    lia.
Qed.


Lemma nat_Q_nonneg (n : nat) : 0 <= nat_Q n.
Proof.
  unfold nat_Q. change 0 with (inject_Z 0). rewrite <- Zle_Qle. lia.
Qed.

Lemma Qdiv_nonneg (a b : Q) : 0 <= a -> 0 <= b -> 0 <= a / b.
Proof.
  intros Ha Hb. unfold Qdiv. apply Qmult_le_0_compat; [exact Ha|].
  now apply Qinv_le_0_compat.
Qed.

Lemma py_min_range (y : Q) : 0 <= y -> 0 <= py_min 100 y <= 100.
Proof.
  intros Hy. unfold py_min. destruct (y <? 100) eqn:E.
  - apply Qltb_lt in E. lra.
  - lra.
Qed.

Lemma round_half_even_range (x : Q) (lo hi : Z) :
  inject_Z lo <= x -> x <= inject_Z hi ->
  (lo <= round_half_even x <= hi)%Z.
Proof.
  intros Hl Hh. unfold round_half_even.
  assert (Hfl : (lo <= Qfloor x)%Z)
    by (rewrite <- (Qfloor_Z lo); now apply Qfloor_resp_le).
  assert (Hfh : (Qfloor x <= hi)%Z)
    by (rewrite <- (Qfloor_Z hi); now apply Qfloor_resp_le).
  pose proof (Qfloor_le x) as Hfx.
  (* When the floor is [hi] the number is [hi] and nothing is added. *)
  assert (Htop : Qfloor x = hi -> x - inject_Z (Qfloor x) == 0).
  { intros E. rewrite E in *. lra. }
  cbv zeta.
  destruct (Z.eq_dec (Qfloor x) hi) as [E|E].
  - assert (Hd : (x - inject_Z (Qfloor x) <? 1 # 2) = true)
      by (apply Qltb_lt; rewrite (Htop E); reflexivity).
    rewrite Hd. lia.
  - destruct (_ <? 1 # 2); [lia|].
    destruct ((1 # 2) <? _); [lia|].
    destruct (Z.even (Qfloor x)); lia.
Qed.

Lemma round2_range (x : Q) : 0 <= x <= 100 -> 0 <= round2 x <= 100.
Proof.
  intros [H0 H1]. unfold round2.
  destruct (@round_half_even_range (x * 100) 0 10000) as [Hl Hh];
    [unfold inject_Z; lra | unfold inject_Z; lra |].
  split.
  - unfold Qle. simpl. lia.
  - unfold Qle. simpl. lia.
Qed.

Lemma weighted_range (a c d r t : Q) :
  0 <= a <= 100 -> 0 <= c <= 100 -> 0 <= d <= 100 -> 0 <= r <= 100 ->
  0 <= t <= 100 ->
  0 <= a * weight Accuracy + c * weight Clarity + d * weight Depth
       + r * weight Relevance + t * weight TimeEfficiency <= 100.
Proof.
  intros Ha Hc Hd Hr Ht.
  change (weight Accuracy) with 0.30. change (weight Clarity) with 0.20.
  change (weight Depth) with 0.25. change (weight Relevance) with 0.15.
  change (weight TimeEfficiency) with 0.10.
  lra.
Qed.

Lemma score_answer_bounds
  (question answer : string) (expected_topics : list string)
  (time_taken max_time : Z) :
  Routes.in_range
    (score_answer question answer expected_topics time_taken max_time).
Proof.
  unfold Routes.in_range, score_answer.
  destruct (too_short answer); [cbn; repeat split; lra|].
  cbv zeta. cbn [accuracy clarity depth relevance time_efficiency overall].
  set (acc := py_min 100 _). set (cla := py_min 100 _).
  set (dep := py_min 100 _). set (rel := py_min 100 _).
  set (tim := inject_Z (_calculate_time_score time_taken max_time)).
  assert (Hacc : 0 <= acc <= 100).
  { apply py_min_range. apply Qmult_le_0_compat; [|lra].
    apply Qdiv_nonneg; apply nat_Q_nonneg. }
  assert (Hcla : 0 <= cla <= 100).
  { apply py_min_range.
    assert (0 <= nat_Q (List.length (split answer)) / 50)
      by (apply Qdiv_nonneg; [apply nat_Q_nonneg | lra]).
    destruct (existsb _ _); lra. }
  assert (Hdep : 0 <= dep <= 100).
  { apply py_min_range.
    assert (0 <= nat_Q (List.length (split answer)) / 100)
      by (apply Qdiv_nonneg; [apply nat_Q_nonneg | lra]).
    pose proof (nat_Q_nonneg
                  (List.length (Re.findall technical_pattern answer))).
    lra. }
  assert (Hrel : 0 <= rel <= 100).
  { apply py_min_range. apply Qmult_le_0_compat; [|lra].
    apply Qdiv_nonneg; apply nat_Q_nonneg. }
  assert (Htim : 0 <= tim <= 100).
  { pose proof (time_score_bounds time_taken max_time) as [H0 H1].
    unfold tim. split.
    - change 0 with (inject_Z 0). now rewrite <- Zle_Qle.
    - change 100 with (inject_Z 100). now rewrite <- Zle_Qle. }
  repeat split; try (apply round2_range; assumption);
    apply round2_range; apply weighted_range; assumption.
Qed.

Lemma round2_whole (n : Z) : round2 (inject_Z n) == inject_Z n.
Proof.
  unfold round2, round_half_even.
  assert (E : inject_Z n * 100 == inject_Z (n * 100))
    by (rewrite inject_Z_mult; reflexivity).
  rewrite (Qfloor_comp _ _ E), Qfloor_Z.
  assert (Hd : (inject_Z n * 100 - inject_Z (n * 100) <? 1 # 2) = true)
    by (apply Qltb_lt; rewrite E; lra).
  cbv zeta. rewrite Hd.
  unfold Qeq. simpl. lia.
Qed.

(** X2. Whatever the question, the answer, the topics and the times, each of
    the five sub-scores and the overall score of [score_answer] is between
    0 and 100; and the time efficiency reported for an answer the guard lets
    through is the whole number [_calculate_time_score] gives, unchanged by
    the rounding. *)
Theorem score_answer_range
  (question answer : string) (expected_topics : list string)
  (time_taken max_time : Z) :
  let r := score_answer question answer expected_topics time_taken max_time in
  (0 <= accuracy r <= 100 /\ 0 <= clarity r <= 100 /\
   0 <= depth r <= 100 /\ 0 <= relevance r <= 100 /\
   0 <= time_efficiency r <= 100 /\ 0 <= overall r <= 100) /\
  (too_short answer = false ->
   time_efficiency r
   == inject_Z (_calculate_time_score time_taken max_time)).
Proof.
  cbn zeta. split.
  - apply score_answer_bounds.
  - intros Hshort. unfold score_answer. rewrite Hshort.
    cbv zeta. cbn [time_efficiency]. apply round2_whole.
Qed.

End ScoreRange.


(** ** What a score says about the answer *)

Section ScoreShape.

Import Num PyStr ScoringEngine.
Local Open Scope string_scope.
Local Open Scope Q_scope.

Lemma split_from_nil (cur s : string) :
  split_from cur s = [] -> cur = "" /\ lstrip s = "".
Proof.
  revert cur. induction s as [|c s IH]; intros cur; cbn [split_from lstrip].
  - destruct cur; [auto | discriminate].
  - destruct (is_space c).
    + destruct cur; cbn [is_empty]; [|discriminate].
      intros H. destruct (IH _ H). auto.
    + intros H. destruct (IH _ H) as [Hcur _].
      destruct cur; discriminate.
Qed.

(** An answer without any word is empty after [strip]. *)
Lemma split_nil_strip (s : string) : split s = [] -> strip s = "".
Proof.
  intros H. destruct (split_from_nil _ _ H) as [_ Hl].
  unfold strip. rewrite Hl. reflexivity.
Qed.

Lemma long_answer_has_word (answer : string) :
  too_short answer = false -> (1 <= List.length (split answer))%nat.
Proof.
  unfold too_short. intros H. apply orb_false_iff in H. destruct H as [_ H].
  apply Nat.ltb_ge in H.
  destruct (split answer) eqn:E; [|simpl; lia].
  rewrite (split_nil_strip _ E) in H. simpl in H. lia.
Qed.

Lemma too_short_spec (answer : string) :
  too_short answer = true
  <-> answer = "" \/ (String.length (strip answer) < 10)%nat.
Proof.
  unfold too_short. rewrite orb_true_iff, Nat.ltb_lt.
  destruct answer; cbn [is_empty]; split; intros [H|H]; auto; discriminate.
Qed.

(** X3. The overall score is 0 exactly for the answers the guard rejects:
    an answer that is not empty and has at least 10 characters after
    [strip] always scores more than 0, whatever its content, the topics and
    the time taken. *)
Theorem overall_zero_iff_too_short
  (question answer : string) (expected_topics : list string)
  (time_taken max_time : Z) :
  overall (score_answer question answer expected_topics time_taken max_time)
  == 0
  <-> answer = "" \/ (String.length (strip answer) < 10)%nat.
Proof.
  rewrite <- too_short_spec. unfold score_answer.
  destruct (too_short answer) eqn:Hshort; [split; reflexivity|].
  split; [|discriminate]. intros Hzero. exfalso.
  revert Hzero. cbv zeta. cbn [overall].
  set (acc := py_min 100 _). set (cla := py_min 100 _).
  set (dep := py_min 100 _). set (rel := py_min 100 _).
  set (tim := inject_Z (_calculate_time_score time_taken max_time)).
  assert (Hacc : 0 <= acc <= 100).
  { apply py_min_range. apply Qmult_le_0_compat; [|lra].
    apply Qdiv_nonneg; apply nat_Q_nonneg. }
  assert (Hwords : 1 <= nat_Q (List.length (split answer))).
  { pose proof (long_answer_has_word _ Hshort) as Hw.
    unfold nat_Q. change 1 with (inject_Z 1). rewrite <- Zle_Qle. lia. }
  assert (Hcla : 1 <= cla <= 100).
  { assert (Hy : 1 <= nat_Q (List.length (split answer)) / 50 * 50
                      + (if existsb (fun m => contains m (lower answer))
                                    structure_markers
                         then 50 else 0)).
    { assert (E : nat_Q (List.length (split answer)) / 50 * 50
                  == nat_Q (List.length (split answer))) by field.
      rewrite E. destruct (existsb _ _); lra. }
    split; [|apply py_min_range; lra].
    unfold cla, py_min. destruct (_ <? 100); lra. }
  assert (Hdep : 0 <= dep <= 100).
  { apply py_min_range.
    assert (0 <= nat_Q (List.length (split answer)) / 100)
      by (apply Qdiv_nonneg; [apply nat_Q_nonneg | lra]).
    pose proof (nat_Q_nonneg
                  (List.length (Re.findall technical_pattern answer))).
    lra. }
  assert (Hrel : 0 <= rel <= 100).
  { apply py_min_range. apply Qmult_le_0_compat; [|lra].
    apply Qdiv_nonneg; apply nat_Q_nonneg. }
  assert (Htim : 0 <= tim <= 100).
  { pose proof (time_score_bounds time_taken max_time) as [H0 H1].
    unfold tim. split.
    - change 0 with (inject_Z 0). now rewrite <- Zle_Qle.
    - change 100 with (inject_Z 100). now rewrite <- Zle_Qle. }
  clearbody acc cla dep rel tim.
  assert (Hraw : 1 # 5 <= acc * weight Accuracy + cla * weight Clarity
                          + dep * weight Depth + rel * weight Relevance
                          + tim * weight TimeEfficiency <= 100).
  { change (weight Accuracy) with 0.30. change (weight Clarity) with 0.20.
    change (weight Depth) with 0.25. change (weight Relevance) with 0.15.
    change (weight TimeEfficiency) with 0.10. lra. }
  match type of Hraw with _ <= ?x <= _ => set (raw := x) in * end.
  clearbody raw.
  unfold round2.
  destruct (@round_half_even_range (raw * 100) 20 10000) as [Hl _];
    [unfold inject_Z; lra | unfold inject_Z; lra |].
  unfold Qeq. simpl. lia.
Qed.

(** X4. With the three expected topics the engine gives a question (the
    skill, the question type and the difficulty), an answer the guard lets
    through gets the accuracy 100 exactly when its lowered text contains
    each of the three topics lowered, the words for the question type and
    the difficulty included; otherwise its accuracy is at most 66.67. *)
Theorem accuracy_full_iff_all_topics
  (question answer t1 t2 t3 : string) (time_taken max_time : Z) :
  (10 <= String.length (strip answer))%nat ->
  let r := score_answer question answer [t1; t2; t3] time_taken max_time in
  (accuracy r == 100 <->
   contains (lower t1) (lower answer) = true /\
   contains (lower t2) (lower answer) = true /\
   contains (lower t3) (lower answer) = true) /\
  (accuracy r == 100 \/ accuracy r <= 66.67).
Proof.
  intros Hlen. cbn zeta.
  assert (Hshort : too_short answer = false).
  { destruct (too_short answer) eqn:E; [|reflexivity].
    apply too_short_spec in E. destruct E as [->|E]; [simpl in Hlen|]; lia. }
  unfold score_answer. rewrite Hshort. cbv zeta. cbn [accuracy filter].
  destruct (contains (lower t1) (lower answer));
    destruct (contains (lower t2) (lower answer));
    destruct (contains (lower t3) (lower answer));
    cbn [List.length];
    (split;
     [split;
      [intros H; first [repeat split; reflexivity
                       | vm_compute in H; discriminate]
      |intros (H1 & H2 & H3); first [reflexivity | discriminate]]
     |first [left; reflexivity | right; vm_compute; discriminate]]).
Qed.

Lemma accuracy_full_iff_all_topics_witness :
  (10 <= String.length (strip "I used Python at work"))%nat /\
  (accuracy (score_answer "What is Python and where have you used it?"
                          "I used Python at work"
                          ["Python"; "technical"; "easy"] 40 60) == 100
   \/ accuracy (score_answer "What is Python and where have you used it?"
                             "I used Python at work"
                             ["Python"; "technical"; "easy"] 40 60)
      <= 66.67).
Proof.
  assert (H : (10 <= String.length (strip "I used Python at work"))%nat)
    by (vm_compute; lia).
  split; [exact H|].
  exact (proj2 (@accuracy_full_iff_all_topics
                  "What is Python and where have you used it?"
                  "I used Python at work" "Python" "technical" "easy"
                  40 60 H)).
Defined.

End ScoreShape.


(** ** The role level and the skill match of a job description *)

Section JobProfile.

Import Num PyStr ScoringEngine JDProfile.
Local Open Scope string_scope.

Lemma lower_app (a b : string) : lower (a ++ b) = lower a ++ lower b.
Proof.
  unfold lower. induction a as [|c a IH]; [reflexivity|].
  cbn [append map_str]. now rewrite IH.
Qed.

Lemma prefix_app (w b : string) : prefix w (w ++ b) = true.
Proof.
  induction w as [|c w IH]; [reflexivity|].
  cbn [append prefix]. now rewrite Ascii.eqb_refl, IH.
Qed.

Lemma contains_app (w a b : string) : contains w (a ++ w ++ b) = true.
Proof.
  induction a as [|c a IH].
  - cbn [append]. destruct (w ++ b) eqn:E; cbn [contains];
      rewrite <- E, prefix_app; reflexivity.
  - cbn [append contains]. rewrite IH. apply orb_true_r.
Qed.

Lemma contains_word (pre word post : string) :
  contains (lower word) (lower (pre ++ word ++ post)) = true.
Proof. rewrite !lower_app. apply contains_app. Qed.

(** X5. The role level goes by substrings of the lowered text.  A senior
    word anywhere, in any case and also inside a longer word or beside
    junior words, makes the level senior; a junior word anywhere keeps the
    level from being mid; and the level is mid exactly when the lowered text
    contains none of the nine words. *)
Theorem role_level_by_substring :
  (forall pre word post : string,
     In (lower word) senior_words ->
     extract_role_level (pre ++ word ++ post) = senior) /\
  (forall pre word post : string,
     In (lower word) junior_words ->
     extract_role_level (pre ++ word ++ post) <> mid) /\
  (forall text : string,
     extract_role_level text = mid <->
     forall w, In w (senior_words ++ junior_words)%list ->
               contains w (lower text) = false).
Proof.
  split; [|split].
  - intros pre word post Hin. unfold extract_role_level.
    assert (H : existsb (fun w => contains w (lower (pre ++ word ++ post)))
                        senior_words = true).
    { apply existsb_exists. exists (lower word).
      split; [exact Hin | apply contains_word]. }
    rewrite H. reflexivity.
  - intros pre word post Hin. unfold extract_role_level.
    assert (H : existsb (fun w => contains w (lower (pre ++ word ++ post)))
                        junior_words = true).
    { apply existsb_exists. exists (lower word).
      split; [exact Hin | apply contains_word]. }
    rewrite H. destruct (existsb _ senior_words); discriminate.
  - intros text. unfold extract_role_level.
    destruct (existsb _ senior_words) eqn:Hs;
      [|destruct (existsb _ junior_words) eqn:Hj].
    + split; [discriminate|]. intros H.
      apply existsb_exists in Hs. destruct Hs as (w & Hw & Hc).
      rewrite (H w) in Hc; [discriminate | apply in_or_app; now left].
    + split; [discriminate|]. intros H.
      apply existsb_exists in Hj. destruct Hj as (w & Hw & Hc).
      rewrite (H w) in Hc; [discriminate | apply in_or_app; now right].
    + split; [|reflexivity]. intros _ w Hw.
      destruct (contains w (lower text)) eqn:Hc; [|reflexivity].
      apply in_app_or in Hw. destruct Hw as [Hw|Hw].
      * assert (E : existsb (fun w => contains w (lower text)) senior_words
                    = true) by (apply existsb_exists; eauto).
        congruence.
      * assert (E : existsb (fun w => contains w (lower text)) junior_words
                    = true) by (apply existsb_exists; eauto).
        congruence.
Qed.

(** A reading of the first part: "Leadership" holds "lead". *)
Example role_level_leadership :
  extract_role_level "Leadership program for graduates" = senior.
Proof. reflexivity. Qed.

Lemma mem_In (x : string) (xs : list string) : mem x xs = true <-> In x xs.
Proof.
  unfold mem. rewrite existsb_exists. split.
  - intros (y & Hy & E). apply String.eqb_eq in E. now subst.
  - intros H. exists x. split; [exact H | apply String.eqb_refl].
Qed.

Lemma mem_not_In (x : string) (xs : list string) :
  negb (mem x xs) = true <-> ~ In x xs.
Proof.
  rewrite negb_true_iff, <- mem_In. destruct (mem x xs); split; intros H;
    try reflexivity; try discriminate; try (intros E; discriminate).
  exfalso. apply H. reflexivity.
Qed.

(** The set a profile is flattened to: the lowered skills, no repeats. *)
Lemma skill_set_from (profile : SkillProfile) (acc : list string) :
  NoDup acc ->
  let set_ :=
    fold_left (fun set_ (entry : string * list string) =>
                 set_update set_ (map lower (snd entry)))
              profile acc in
  NoDup set_ /\
  forall x, In x set_ <->
            In x acc \/
            exists entry s, In entry profile /\ In s (snd entry) /\ x = lower s.
Proof.
  revert acc. induction profile as [|e profile IH]; intros acc Hacc; cbn zeta.
  - cbn [fold_left]. split; [exact Hacc|].
    intros x. split; [auto|]. intros [H|(entry & _ & [] & _)]. exact H.
  - cbn [fold_left].
    destruct (IH (set_update acc (map lower (snd e)))) as [Hnd Hin];
      [apply dedup_NoDup|].
    split; [exact Hnd|]. intros x. rewrite Hin.
    unfold set_update. rewrite dedup_In, in_app_iff, in_map_iff.
    split.
    + intros [[H|(s0 & E & Hs)]|(entry & s0 & He & Hs & E)].
      * now left.
      * right. exists e, s0. repeat split; auto. now left.
      * right. exists entry, s0. repeat split; auto. now right.
    + intros [H|(entry & s0 & [He|He] & Hs & E)].
      * left. now left.
      * subst entry. left. right. exists s0. auto.
      * right. exists entry, s0. auto.
Qed.

Lemma skill_set_spec (profile : SkillProfile) :
  NoDup (skill_set profile) /\
  forall x, In x (skill_set profile) <->
            exists entry s, In entry profile /\ In s (snd entry) /\ x = lower s.
Proof.
  destruct (@skill_set_from profile [] (NoDup_nil _)) as [Hnd Hin].
  split; [exact Hnd|]. intros x. unfold skill_set. rewrite Hin.
  split; [intros [[]|H]; exact H | auto].
Qed.

Lemma filter_split_length {A} (f : A -> bool) (l : list A) :
  (List.length (filter f l) + List.length (filter (fun x => negb (f x)) l)
   = List.length l)%nat.
Proof.
  induction l as [|x l IH]; [reflexivity|].
  cbn [filter]. destruct (f x); cbn [negb List.length]; lia.
Qed.

(** Counting the common elements from either side gives the same number. *)
Lemma intersection_length (a b : list string) :
  NoDup a -> NoDup b ->
  List.length (intersection a b) = List.length (intersection b a).
Proof.
  intros Ha Hb. apply Permutation_length. apply NoDup_Permutation.
  - now apply NoDup_filter.
  - now apply NoDup_filter.
  - intros x. unfold intersection. rewrite !filter_In, !mem_In. tauto.
Qed.

Local Open Scope Q_scope.

Lemma len_ratio_range {A B} (a : list A) (b : list B) :
  (List.length a <= List.length b)%nat -> b <> [] ->
  0 <= len a / len b * 100 <= 100.
Proof.
  intros Hle Hb. unfold len.
  assert (Hpos : 0 < inject_Z (Z.of_nat (List.length b))).
  { change 0 with (inject_Z 0). rewrite <- Zlt_Qlt.
    destruct b; [contradiction | simpl List.length; lia]. }
  assert (H0 : 0 <= inject_Z (Z.of_nat (List.length a)))
    by (change 0 with (inject_Z 0); rewrite <- Zle_Qle; lia).
  assert (H1 : inject_Z (Z.of_nat (List.length a))
               <= inject_Z (Z.of_nat (List.length b)))
    by (rewrite <- Zle_Qle; lia).
  assert (Hq0 : 0 <= inject_Z (Z.of_nat (List.length a))
                     / inject_Z (Z.of_nat (List.length b)))
    by (apply Qle_shift_div_l; [exact Hpos | lra]).
  assert (Hq1 : inject_Z (Z.of_nat (List.length a))
                / inject_Z (Z.of_nat (List.length b)) <= 1)
    by (apply Qle_shift_div_r; [exact Hpos | lra]).
  lra.
Qed.

Lemma match_percentage_full (R J : list string) :
  NoDup R -> NoDup J -> J <> [] -> difference J R = [] ->
  round2 (len (intersection R J) / len J * 100) == 100.
Proof.
  intros HR HJ Hne Hmiss.
  assert (Hcount : (List.length (intersection R J)
                    + List.length (difference J R) = List.length J)%nat).
  { rewrite (intersection_length HR HJ). apply filter_split_length. }
  rewrite Hmiss in Hcount. cbn [List.length] in Hcount.
  destruct (List.length J) eqn:HJlen;
    [destruct J; [contradiction | discriminate]|].
  assert (E : len (intersection R J) / len J * 100 == 100).
  { unfold len. rewrite HJlen.
    replace (List.length (intersection R J)) with (S n) by lia.
    field. change 0 with (inject_Z 0). rewrite inject_Z_injective. lia. }
  rewrite (round2_proper E). reflexivity.
Qed.


(** X6. [compute_skill_match] compares the lowered skills of the two
    profiles as sets.  The matched skills are those in both sets and the
    missing ones those of the job description only, each without repeats;
    together they count the skills of the job description.  The percentage
    is between 0 and 100; it is 0, without any division, when the job
    description has no skill, and 100 when it has some and none is
    missing. *)
Theorem skill_match_partition (resume_skills jd_skills : SkillProfile) :
  let r := compute_skill_match resume_skills jd_skills in
  let R := skill_set resume_skills in
  let J := skill_set jd_skills in
  (forall profile x,
     In x (skill_set profile) <->
     exists entry s, In entry profile /\ In s (snd entry) /\ x = lower s) /\
  NoDup (matched_skills r) /\ NoDup (missing_skills r) /\
  (forall x, In x (matched_skills r) <-> In x R /\ In x J) /\
  (forall x, In x (missing_skills r) <-> In x J /\ ~ In x R) /\
  (total_matched r + List.length (missing_skills r) = total_jd_skills r)%nat /\
  0 <= match_percentage r <= 100 /\
  (J = [] -> match_percentage r == 0) /\
  (J <> [] -> missing_skills r = [] -> match_percentage r == 100).
Proof.
  cbn zeta. unfold compute_skill_match.
  cbn [matched_skills missing_skills total_matched total_jd_skills
       match_percentage].
  destruct (skill_set_spec resume_skills) as [HR _].
  destruct (skill_set_spec jd_skills) as [HJ _].
  set (R := skill_set resume_skills) in *.
  set (J := skill_set jd_skills) in *.
  assert (Hcount : (List.length (intersection R J)
                    + List.length (difference J R) = List.length J)%nat).
  { rewrite (intersection_length HR HJ). apply filter_split_length. }
  split; [intros profile x; apply skill_set_spec|].
  split; [now apply NoDup_filter|].
  split; [now apply NoDup_filter|].
  split; [intros x; unfold intersection; rewrite filter_In, mem_In; tauto|].
  split; [intros x; unfold difference; rewrite filter_In, mem_not_In; tauto|].
  split; [exact Hcount|].
  split; [|split].
  - destruct (List.length J) eqn:HJlen.
    + apply round2_range. lra.
    + apply round2_range. apply len_ratio_range; [lia|].
      intros E. rewrite E in HJlen. discriminate.
  - intros E. rewrite E. reflexivity.
  - intros Hne Hmiss. destruct (List.length J) eqn:HJlen;
      [destruct J; [contradiction | discriminate]|].
    now apply match_percentage_full.
Qed.

End JobProfile.



(** ** The skill profile and the companies of a resume *)

Section ResumeFacts.

Import PyStr Re Vocabulary Reference ResumeProfile.
Local Open Scope string_scope.

Lemma reported_cases (text : string) (entry : string * list string) :
  (found_in_category text (snd entry) = [] /\ reported text entry = []) \/
  (found_in_category text (snd entry) <> [] /\
   reported text entry = [(fst entry, found_in_category text (snd entry))]).
Proof.
  unfold reported. destruct (found_in_category text (snd entry));
    [left; auto | right; split; [discriminate | reflexivity]].
Qed.

Lemma reported_categories (text : string)
      (vocabulary : list (string * list string)) (category : string) :
  In category (map fst (flat_map (reported text) vocabulary)) ->
  In category (map fst vocabulary).
Proof.
  rewrite !in_map_iff. intros ([c f] & E & Hin). cbn [fst] in E. subst c.
  apply in_flat_map in Hin. destruct Hin as (entry & Hentry & Hin).
  destruct (reported_cases text entry) as [[_ Hr]|[_ Hr]];
    rewrite Hr in Hin; [contradiction|]. destruct Hin as [Hin|[]].
  injection Hin as <- _. exists entry. auto.
Qed.

Lemma reported_NoDup (text : string)
      (vocabulary : list (string * list string)) :
  NoDup (map fst vocabulary) ->
  NoDup (map fst (flat_map (reported text) vocabulary)).
Proof.
  induction vocabulary as [|entry v IH]; intros Hnd; [constructor|].
  cbn [flat_map]. cbn [map] in Hnd. inversion Hnd as [|? ? Hnot Hrest]; subst.
  destruct (reported_cases text entry) as [[_ Hr]|[_ Hr]]; rewrite Hr.
  - now apply IH.
  - cbn [app map fst]. constructor; [|now apply IH].
    intros Hin. apply Hnot. now apply reported_categories in Hin.
Qed.

Lemma total_of_from (profile : SkillProfile) (n : nat) :
  fold_left (fun n (entry : string * list string) =>
               (n + List.length (snd entry))%nat) profile n
  = (n + List.length (concat (map snd profile)))%nat.
Proof.
  revert n. induction profile as [|e profile IH]; intros n; cbn.
  - lia.
  - rewrite IH, length_app. lia.
Qed.

Lemma total_of_length (profile : SkillProfile) :
  Routes.total_of profile = List.length (concat (map snd profile)).
Proof. unfold Routes.total_of. now rewrite total_of_from. Qed.

Lemma reported_total (text : string)
      (vocabulary : list (string * list string)) :
  (Routes.total_of (flat_map (reported text) vocabulary)
   <= List.length (concat (map snd vocabulary)))%nat.
Proof.
  rewrite total_of_length.
  induction vocabulary as [|entry v IH]; [cbn; lia|].
  cbn [flat_map map concat]. rewrite map_app, concat_app, !length_app.
  assert (H : (List.length (concat (map snd (reported text entry)))
               <= List.length (snd entry))%nat).
  { destruct (reported_cases text entry) as [[_ Hr]|[_ Hr]]; rewrite Hr; cbn.
    - lia.
    - rewrite app_nil_r. unfold found_in_category.
      rewrite length_map. apply filter_length_le. }
  lia.
Qed.

(** X7. The skill profile a text gets has each category at most once, in
    no case an empty category, and only categories of the vocabulary; the
    skills of a category are the title-cased terms of that category whose
    pattern is found in the lowered text, in the order of the vocabulary;
    every term so found is reported; and the profile holds at most the 64
    terms of the vocabulary. *)
Theorem extract_skills_well_formed (text : string) :
  let profile := ResumeParser.extract_skills text in
  JDParser.extract_required_skills text = profile /\
  NoDup (map fst profile) /\
  (forall category found,
     In (category, found) profile ->
     found <> [] /\
     exists terms,
       In (category, terms) tech_skills /\
       found = map title (filter (term_found text) terms)) /\
  (forall category terms term,
     In (category, terms) tech_skills -> In term terms ->
     term_found text term = true ->
     exists found, In (category, found) profile /\ In (title term) found) /\
  (Routes.total_of profile <= 64)%nat.
Proof.
  cbn zeta. unfold ResumeParser.extract_skills, ResumeParser.tech_skills.
  rewrite scan_skills_categories.
  split; [unfold JDParser.extract_required_skills, JDParser.tech_skills;
          apply scan_skills_categories|].
  split; [|split; [|split]].
  - apply reported_NoDup. cbn.
    repeat constructor; cbn; intuition discriminate.
  - intros category found Hin.
    apply in_flat_map in Hin. destruct Hin as ([c terms] & Hentry & Hin).
    destruct (reported_cases text (c, terms)) as [[_ Hr]|[Hne Hr]];
      rewrite Hr in Hin; [contradiction|]. destruct Hin as [Hin|[]].
    injection Hin as <- <-. cbn [fst snd] in *.
    split; [exact Hne|]. exists terms. split; [exact Hentry | reflexivity].
  - intros category terms term Hentry Hterm Hfound.
    assert (Hin : In (title term) (found_in_category text terms)).
    { unfold found_in_category. apply in_map. apply filter_In. auto. }
    exists (found_in_category text terms). split; [|exact Hin].
    apply in_flat_map. exists (category, terms). split; [exact Hentry|].
    destruct (reported_cases text (category, terms)) as [[He _]|[_ Hr]].
    + cbn [snd] in He. rewrite He in Hin. contradiction.
    + rewrite Hr. now left.
  - apply (reported_total text tech_skills).
Qed.

Lemma lower_char_not_upper (c : ascii) : is_upper (lower_char c) = false.
Proof. destruct c as [[] [] [] [] [] [] [] []]; reflexivity. Qed.

Lemma lower_no_upper (text : string) : no_upper (lower text) = true.
Proof.
  unfold lower. induction text as [|c text IH]; [reflexivity|].
  cbn [map_str no_upper]. now rewrite lower_char_not_upper, IH.
Qed.

Lemma substring_no_upper (n m : nat) (s : string) :
  no_upper s = true -> no_upper (substring n m s) = true.
Proof.
  revert n m. induction s as [|c s IH]; intros n m H.
  - destruct n, m; reflexivity.
  - cbn [no_upper] in H. apply andb_true_iff in H. destruct H as [Hc Hs].
    destruct n as [|n]; [destruct m as [|m]|]; cbn [substring no_upper].
    + reflexivity.
    + now rewrite Hc, IH.
    + now apply IH.
Qed.

(** The company pattern starts with an upper-case letter. *)
Lemma company_pattern_needs_upper (prev : option ascii) (s : string) :
  no_upper s = true -> match_here company_pattern prev s = None.
Proof.
  intros H. unfold match_here, company_pattern. cbn [seq run].
  destruct (xorb _ _); [|reflexivity].
  destruct s as [|c s]; [reflexivity|].
  cbn [no_upper] in H. apply andb_true_iff in H. destruct H as [Hc _].
  apply negb_true_iff in Hc. now rewrite Hc.
Qed.

Lemma finditer_company_none (prev : option ascii) (s : string) :
  no_upper s = true -> finditer_from company_pattern 0 prev s = [].
Proof.
  revert prev. induction s as [|c s IH]; intros prev H; cbn [finditer_from];
    rewrite (company_pattern_needs_upper _ _ H); [reflexivity|].
  cbn [no_upper] in H. apply andb_true_iff in H. destruct H as [_ Hs].
  now apply IH.
Qed.

(** X8. [extract_experience] looks for company names, which begin with
    upper-case letters, in a section it has cut out of [text.lower()]: in a
    text without upper-case letters it finds none, so that for every resume
    and every section of its lowered text the list of companies is empty. *)
Theorem companies_always_empty :
  (forall section_text : string,
     no_upper section_text = true -> companies_in section_text = []) /\
  (forall (text : string) (n m : nat),
     companies_in (substring n m (lower text)) = []).
Proof.
  assert (H : forall s, no_upper s = true -> companies_in s = []).
  { intros s Hs. unfold companies_in, findall.
    now rewrite (finditer_company_none _ _ Hs). }
  split; [exact H|].
  intros text n m. apply H, substring_no_upper, lower_no_upper.
Qed.

(** The pattern does find names where the letters are as written. *)
Example companies_in_written_text :
  companies_in "Worked at Acme Corp and at Big Data Inc"
  = ["Acme Corp"; "Big Data Inc"].
Proof. reflexivity. Qed.

End ResumeFacts.


(** ** The sessions of the routes *)

Section RouteFacts.

Import InterviewEngine ScoringEngine Main Reference Routes.
Local Open Scope string_scope.
Local Open Scope Z_scope.

(** What an accepted [submit_answer] does to the session: the answer and its
    score are stored; either the engine and the questions stay as they are,
    or the difficulty is adjusted on all the overall scores and one more
    question is asked. *)
Lemma submit_answer_effect (s s' : SessionData) (a : Answer) (ds dt : nat)
      (r : Response) :
  submit_answer s a ds dt = Ok (s', r) ->
  exists e cq sc,
    interview_engine s = Some e /\
    last (questions_asked s) cq = cq /\ In cq (questions_asked s) /\
    sc = score_answer (question cq) (answer a) (expected_topics cq)
                      (time_taken a) 60 /\
    scores s' = (scores s ++ [sc])%list /\
    List.length (answers_given s') = S (List.length (answers_given s)) /\
    resume_data s' = resume_data s /\ jd_data s' = jd_data s /\
    scoring_engine s' = scoring_engine s /\
    ((interview_engine s' = Some e /\
      questions_asked s' = questions_asked s) \/
     (exists resume jd,
        resume_data s = Some resume /\ jd_data s = Some jd /\
        question_count e < max_questions e /\
        let e1 := fst (adjust_difficulty e (map overall (scores s'))) in
        interview_engine s'
        = Some (fst (conduct_interview e1 resume jd ds dt)) /\
        questions_asked s'
        = (questions_asked s
           ++ [snd (conduct_interview e1 resume jd ds dt)])%list)).
Proof.
  unfold submit_answer.
  destruct (interview_engine s) as [e|] eqn:He; [|discriminate].
  destruct (scoring_engine s) as [u|] eqn:Hs; [|discriminate].
  destruct (rev (questions_asked s)) as [|cq rest] eqn:Hrev; [discriminate|].
  assert (Hqs : questions_asked s = (rev rest ++ [cq])%list).
  { rewrite <- (rev_involutive (questions_asked s)), Hrev. reflexivity. }
  set (sc := score_answer _ _ _ _ _).
  intros H. exists e, cq, sc.
  split; [reflexivity|].
  split; [rewrite Hqs; apply last_last|].
  split; [rewrite Hqs; apply in_or_app; right; now left|].
  split; [reflexivity|].
  destruct (should_terminate_early _);
    [|destruct (max_questions e <=? question_count e) eqn:Hmax].
  - injection H as <- _. cbn [scores answers_given resume_data jd_data scoring_engine
         interview_engine questions_asked].
    rewrite length_app. cbn [List.length].
    repeat split; auto; try lia.
  - injection H as <- _. cbn [scores answers_given resume_data jd_data scoring_engine
         interview_engine questions_asked].
    rewrite length_app. cbn [List.length].
    repeat split; auto; try lia.
  - apply Z.leb_gt in Hmax.
    destruct (adjust_difficulty e (map overall (scores s ++ [sc]))) as [e1 nd]
      eqn:Hadj.
    destruct (resume_data s) as [resume|] eqn:Hr; [|discriminate].
    destruct (jd_data s) as [jd|] eqn:Hj; [|discriminate].
    destruct (conduct_interview e1 resume jd ds dt) as [e2 nq] eqn:Hcond.
    injection H as <- _. cbn [scores answers_given resume_data jd_data scoring_engine
         interview_engine questions_asked].
    rewrite length_app. cbn [List.length].
    repeat split; auto; try lia.
    right. exists resume, jd. cbv zeta. rewrite Hadj. cbn [fst].
    rewrite Hcond. repeat split; auto.
Qed.










Lemma next_question_type_rotated (e : engine) (n : nat) :
  question_count e = Z.of_nat n -> get_next_question_type e = rotated n.
Proof.
  intros H. unfold get_next_question_type, rotated. rewrite H.
  cbn [question_types List.length].
  change (Z.of_nat 4) with (Z.of_nat 4%nat).
  rewrite <- Nat2Z.inj_mod, Nat2Z.id. reflexivity.
Qed.

Lemma conduct_interview_question (self : engine) (resume : ResumeData)
      (jd : JDData) (ds dt : nat) :
  let r := conduct_interview self resume jd ds dt in
  question_count (fst r) = question_count self + 1 /\
  max_questions (fst r) = max_questions self /\
  current_difficulty (fst r) = current_difficulty self /\
  question_number (snd r) = question_count self + 1 /\
  question_type (snd r) = get_next_question_type self /\
  difficulty (snd r) = current_difficulty self /\
  time_limit (snd r) = 60 /\
  q_max_questions (snd r) = max_questions self.
Proof.
  cbn zeta. unfold conduct_interview.
  destruct (generate_question _ _ _ _ _ _). repeat split.
Qed.

Lemma adjust_difficulty_near (self : engine) (scores : list Q) :
  near (current_difficulty self)
       (current_difficulty (fst (adjust_difficulty self scores))) = true.
Proof.
  unfold adjust_difficulty. destruct scores as [|x xs].
  - cbn. destruct (current_difficulty self); reflexivity.
  - destruct (Num.Qltb 75 _); [|destruct (Num.Qltb _ 40)];
      destruct (current_difficulty self) eqn:E; cbn; rewrite ?E; reflexivity.
Qed.

Lemma stepwise_snoc (l : list Difficulty) (d : Difficulty) :
  stepwise l -> near (last l easy) d = true -> l <> [] ->
  stepwise (l ++ [d]).
Proof.
  induction l as [|a l IH]; intros Hs Hn Hne; [contradiction|].
  destruct l as [|b l].
  - cbn in *. auto.
  - cbn [app]. cbn [stepwise] in Hs. destruct Hs as [Hab Hrest].
    change (near a b = true /\ stepwise ((b :: l) ++ [d])).
    split; [exact Hab|]. apply IH; [exact Hrest | exact Hn | discriminate].
Qed.

Lemma hd_app_nonempty {A} (l l' : list A) (d : A) :
  l <> [] -> hd d (l ++ l') = hd d l.
Proof. destruct l; [contradiction | reflexivity]. Qed.

(** The first question of an interview. *)
Lemma start_numbered (s0 s1 : SessionData) (ds dt : nat) (q : QuestionData) :
  questions_asked s0 = [] -> answers_given s0 = [] -> scores s0 = [] ->
  start_interview s0 ds dt = Ok (s1, q) -> exists e, numbered s1 e.
Proof.
  intros Hq Ha Hs. unfold start_interview.
  destruct (resume_data s0) as [resume|] eqn:Hr; [|discriminate].
  destruct (jd_data s0) as [jd|] eqn:Hj; [|discriminate].
  pose proof (conduct_interview_question init resume jd ds dt) as Hc.
  cbn zeta in Hc.
  destruct (conduct_interview init resume jd ds dt) as [e1 q1].
  cbn [fst snd] in Hc.
  destruct Hc as (Hc1 & Hc2 & Hc3 & Hc4 & Hc5 & Hc6 & Hc7 & Hc8).
  intros H. injection H as <- _. exists e1.
  unfold numbered.
  cbn [scores answers_given resume_data jd_data scoring_engine
       interview_engine questions_asked].
  rewrite Hq, Ha, Hs. cbn [app map List.length seq hd last stepwise].
  rewrite Hc1, Hc2, Hc3, Hc4, Hc5, Hc6.
  rewrite (@next_question_type_rotated init 0 eq_refl).
  repeat split; try discriminate; try reflexivity; try lia; auto.
Qed.

(** One more answer in an interview. *)
Lemma submit_numbered (s s' : SessionData) (e : engine) (a : Answer)
      (ds dt : nat) (r : Response) :
  numbered s e -> submit_answer s a ds dt = Ok (s', r) ->
  exists e', numbered s' e'.
Proof.
  intros Hnum Hsub.
  destruct (submit_answer_effect _ _ _ _ Hsub)
    as (e0 & cq & sc & He0 & _ & _ & _ & Hscores & Hans & Hres & Hjd & Hse
        & Hcase).
  unfold numbered in Hnum. cbn zeta in Hnum.
  destruct Hnum as (He & Hr & Hj & Hsc & Hmax & Hne & Hcount & Hnums & Htypes
                    & Hall & Hstep & Hhd & Hlast & Hten & Hlen & Heq).
  assert (e0 = e) by congruence. subst e0.
  destruct Hcase as [[He' Hqs]|(resume & jd & Hres0 & Hjd0 & Hlt & He' & Hqs)].
  - exists e. unfold numbered. cbn zeta.
    rewrite Hqs, Hscores, Hans, Hres, Hjd, Hse, length_app.
    cbn [List.length].
    repeat split; try assumption; lia.
  - cbn zeta in He', Hqs.
    set (e1 := fst (adjust_difficulty e (map overall (scores s')))) in *.
    pose proof (adjust_difficulty_counts e (map overall (scores s')))
      as [Hc1 Hm1].
    pose proof (adjust_difficulty_near e (map overall (scores s'))) as Hnear.
    fold e1 in Hc1, Hm1, Hnear.
    pose proof (conduct_interview_question e1 resume jd ds dt) as Hc.
    cbn zeta in Hc.
    set (e2 := fst (conduct_interview e1 resume jd ds dt)) in *.
    set (nq := snd (conduct_interview e1 resume jd ds dt)) in *.
    destruct Hc as (Hq1 & Hq2 & Hq3 & Hq4 & Hq5 & Hq6 & Hq7 & Hq8).
    set (n := List.length (questions_asked s)) in *.
    assert (Hn10 : (n < 10)%nat) by lia.
    exists e2. unfold numbered. cbn zeta.
    rewrite Hqs, Hscores, Hans, Hres, Hjd, Hse, !length_app.
    cbn [List.length]. fold n.
    replace (n + 1)%nat with (S n) by lia.
    rewrite !map_app, !seq_S, !map_app. cbn [map].
    rewrite Hnums, Htypes, Hq4, Hq5, Hq6, Hq1, Hq2, Hq3.
    rewrite (@next_question_type_rotated e1 n) by congruence.
    rewrite Hc1, Hm1, Hcount, Hmax, last_last.
    rewrite hd_app_nonempty
      by (intros E; apply map_eq_nil in E; contradiction).
    repeat split; try assumption; try lia; try reflexivity.
    + intros E. apply app_eq_nil in E. destruct E; discriminate.
    + f_equal. f_equal. lia.
    + apply Forall_app. split; [exact Hall|].
      constructor; [|constructor]. split; [exact Hq7|]. congruence.
    + apply stepwise_snoc; [exact Hstep | |].
      * rewrite Hlast. exact Hnear.
      * intros E. apply map_eq_nil in E. contradiction.
Qed.

Lemma interview_run_numbered (s : SessionData) :
  interview_run s -> exists e, numbered s e.
Proof.
  induction 1 as [s0 s1 ds dt q Hq Ha Hs Hstart | s s' a ds dt r Hrun IH Hsub].
  - exact (@start_numbered s0 s1 ds dt q Hq Ha Hs Hstart).
  - destruct IH as [e He]. exact (@submit_numbered s s' e a ds dt r He Hsub).
Qed.

(** X10. In one interview (a start on a session that has asked nothing,
    then answers) the counter of the engine is the number of questions
    asked; the questions are numbered 1, 2, 3, ... in the order asked; their
    types go round technical, conceptual, behavioral, scenario-based from
    the first question on; each has the time limit 60; there are between 1
    and 10 of them, and at most one more than there are scores. *)
Theorem questions_are_numbered (s : SessionData) :
  interview_run s ->
  let qs := questions_asked s in
  let n := List.length qs in
  (exists e, interview_engine s = Some e /\ question_count e = Z.of_nat n) /\
  map question_number qs = map Z.of_nat (seq 1 n) /\
  map question_type qs = map rotated (seq 0 n) /\
  Forall (fun q => time_limit q = 60) qs /\
  (1 <= n <= 10)%nat /\
  (n <= List.length (scores s) + 1)%nat.
Proof.
  intros Hrun. destruct (interview_run_numbered Hrun) as [e Hnum].
  unfold numbered in Hnum. cbn zeta in *.
  destruct Hnum as (He & _ & _ & _ & _ & Hne & Hcount & Hnums & Htypes
                    & Hall & _ & _ & _ & Hten & Hlen & _).
  split; [exists e; auto|].
  split; [exact Hnums|]. split; [exact Htypes|].
  split; [eapply Forall_impl; [|exact Hall]; now intros q [H _]|].
  split; [|exact Hlen].
  split; [|exact Hten].
  destruct (questions_asked s); [contradiction | cbn; lia].
Qed.

(** X11. In one interview the first question is easy, the difficulty of each
    further question is that of the question before or the level next to
    it, never easy after hard nor hard after easy, and the difficulty of
    the engine is that of the last question asked. *)
Theorem difficulty_moves_stepwise (s : SessionData) :
  interview_run s ->
  let ds := map difficulty (questions_asked s) in
  stepwise ds /\
  hd easy ds = easy /\
  exists e, interview_engine s = Some e /\
            current_difficulty e = last ds easy.
Proof.
  intros Hrun. destruct (interview_run_numbered Hrun) as [e Hnum].
  unfold numbered in Hnum. cbn zeta in *.
  destruct Hnum as (He & _ & _ & _ & _ & _ & _ & _ & _ & _ & Hstep & Hhd
                    & Hlast & _).
  split; [exact Hstep|]. split; [exact Hhd|].
  exists e. split; [exact He | symmetry; exact Hlast].
Qed.

Lemma answered_session_run : interview_run answered_session.
Proof.
  assert (H0 : interview_run started_session).
  { apply (@run_start uploaded_session started_session 0 0
             {| question_number := 1;
                question := "What is Python and where have you used it?";
                expected_topics := ["Python"; "technical"; "easy"];
                difficulty := easy;
                question_type := technical;
                q_max_questions := 10;
                time_limit := 60 |}); reflexivity. }
  eapply (@run_submit started_session answered_session
            (mkAnswer "I used Python at work" 40) 1 1); [exact H0|].
  vm_compute. reflexivity.
Defined.

Lemma questions_are_numbered_witness :
  interview_run answered_session /\
  map question_number (questions_asked answered_session)
  = map Z.of_nat (seq 1 (List.length (questions_asked answered_session))).
Proof.
  split; [exact answered_session_run|].
  exact (proj1 (proj2 (questions_are_numbered answered_session_run))).
Defined.

Lemma difficulty_moves_stepwise_witness :
  interview_run answered_session /\
  stepwise (map difficulty (questions_asked answered_session)).
Proof.
  split; [exact answered_session_run|].
  exact (proj1 (difficulty_moves_stepwise answered_session_run)).
Defined.

End RouteFacts.

(** ** The shape of the final report *)

Section ReportShape.

Import Num ScoringEngine Reference Routes.
Local Open Scope string_scope.
Local Open Scope Q_scope.

Lemma sum_range (xs : list Q) :
  Forall (fun x => 0 <= x <= 100) xs ->
  0 <= fold_right Qplus 0 xs
  <= 100 * inject_Z (Z.of_nat (List.length xs)).
Proof.
  induction 1 as [|x xs Hx _ IH].
  - cbn [fold_right List.length]. change (inject_Z (Z.of_nat 0)) with 0. lra.
  - cbn [fold_right List.length]. rewrite Nat2Z.inj_succ.
    unfold Z.succ. rewrite inject_Z_plus.
    change (inject_Z 1) with 1. cbv beta in Hx.
    set (sum := fold_right Qplus 0 xs) in *.
    set (n := inject_Z (Z.of_nat (List.length xs))) in *.
    clearbody sum n. lra.
Qed.

Lemma mean_range (xs : list Q) :
  xs <> [] -> Forall (fun x => 0 <= x <= 100) xs -> 0 <= mean xs <= 100.
Proof.
  intros Hne Hall. destruct (sum_range Hall) as [H0 H1]. unfold mean.
  assert (Hpos : 0 < inject_Z (Z.of_nat (List.length xs))).
  { change 0 with (inject_Z 0). rewrite <- Zlt_Qlt.
    destruct xs; [contradiction | simpl List.length; lia]. }
  split.
  - apply Qle_shift_div_l; [exact Hpos | lra].
  - apply Qle_shift_div_r; [exact Hpos | lra].
Qed.

Lemma in_range_get (sc : AnswerScore) (m : Metric) :
  in_range sc -> 0 <= get m sc <= 100.
Proof.
  intros (H1 & H2 & H3 & H4 & H5 & H6). destruct m; assumption.
Qed.

Lemma loop_mean_range (all_scores : list AnswerScore) (m : Metric) :
  all_scores <> [] -> Forall in_range all_scores ->
  0 <= loop_mean all_scores m <= 100.
Proof.
  intros Hne Hall. rewrite loop_mean_metric_mean. unfold metric_mean.
  apply mean_range.
  - intros E. apply map_eq_nil in E. contradiction.
  - apply Forall_map. eapply Forall_impl; [|exact Hall].
    intros sc. apply in_range_get.
Qed.

Lemma or_none_In (name : string) (l : list string) :
  In name (or_none l) -> name = "None identified" \/ In name l.
Proof.
  destruct l; cbn; [intros [<-|[]]; now left | now right].
Qed.

Lemma readable_injective (a b : Metric) : readable a = readable b -> a = b.
Proof. destruct a, b; cbn; intros H; try reflexivity; discriminate. Qed.

(** X12. For at least one score, each with its numbers between 0 and 100,
    the final report has its final score and the six entries of its
    breakdown, in the order of the weights and then the overall score,
    between 0 and 100; it counts the scores; its strengths and its
    weaknesses are never empty lists; and no metric is both a strength and
    a weakness: a name in both lists can only be the placeholder. *)
Theorem final_report_shape (all_scores : list AnswerScore) :
  all_scores <> [] -> Forall in_range all_scores ->
  let r := calculate_final_score all_scores in
  0 <= final_score r <= 100 /\
  map fst (skill_breakdown r)
  = [Accuracy; Clarity; Depth; Relevance; TimeEfficiency; Overall] /\
  Forall (fun e : Metric * Q => 0 <= snd e <= 100) (skill_breakdown r) /\
  total_questions r = Some (List.length all_scores) /\
  strengths r <> [] /\ weaknesses r <> [] /\
  (forall name, In name (strengths r) -> In name (weaknesses r) ->
                name = "None identified").
Proof.
  intros Hne Hall. cbn zeta.
  destruct all_scores as [|a l]; [contradiction|].
  rewrite calculate_final_score_cons. unfold report_of_means.
  cbn [final_score skill_breakdown total_questions strengths weaknesses].
  pose proof (fun m => @loop_mean_range (a :: l) m Hne Hall) as Hm.
  set (lm := loop_mean (a :: l)) in *.
  split; [apply round2_range, Hm|].
  split; [reflexivity|].
  split.
  { apply Forall_map. apply Forall_forall. intros m _. cbn [snd].
    apply round2_range, Hm. }
  split; [reflexivity|].
  split; [destruct (map readable _); discriminate|].
  split; [destruct (map readable (filter (fun m => lm m <? 50) _));
          discriminate|].
  intros name Hs Hw.
  apply or_none_In in Hs. destruct Hs as [Hs|Hs]; [exact Hs|].
  apply or_none_In in Hw. destruct Hw as [Hw|Hw]; [exact Hw|].
  exfalso.
  apply in_map_iff in Hs. destruct Hs as (m1 & E1 & Hs).
  apply in_map_iff in Hw. destruct Hw as (m2 & E2 & Hw).
  apply filter_In in Hs. destruct Hs as [_ Hs].
  apply filter_In in Hw. destruct Hw as [_ Hw].
  assert (m1 = m2) by (apply readable_injective; congruence). subst m2.
  apply Qleb_le in Hs. apply Qltb_lt in Hw. lra.
Qed.

Lemma final_report_shape_witness :
  one_in_three <> [] /\
  0 <= final_score (calculate_final_score one_in_three) <= 100.
Proof.
  assert (Hne : one_in_three <> []) by discriminate.
  assert (Hall : Forall in_range one_in_three).
  { repeat constructor; cbn; try (intros H; discriminate). }
  split; [exact Hne|].
  exact (proj1 (final_report_shape Hne Hall)).
Defined.

End ReportShape.

(** ** Runs of the difficulty adjustment *)

Section DifficultyRuns.

Import Num InterviewEngine Reference EngineRuns.
Local Open Scope Q_scope.








(** Two good rounds from the start, then two bad ones. *)
Example adjust_many_up_and_down :
  current_difficulty (adjust_many init [[80]; [90; 85]]) = hard /\
  current_difficulty (adjust_many init [[80]; [90; 85]; [10]; [20; 30]]) = easy.
Proof. split; reflexivity. Qed.

End DifficultyRuns.

(** ** The analysis of a job description *)

Section Analysis.

Import Num PyStr ScoringEngine InterviewEngine Main JDProfile Routes.
Local Open Scope string_scope.



End Analysis.

(** ** When an interview goes on and when it ends early *)

Section EarlyEnd.

Import Num PyStr InterviewEngine ScoringEngine Main Reference Routes.
Local Open Scope string_scope.



(** X16. In a started interview whose last two scores have overall scores
    summing to less than 90, an answer that the guard rejects ends the
    interview: the response is complete, with early termination and the
    reason "Performance below threshold", also when the ten questions have
    been asked; the engine and the questions stay as they are.  Three
    rejected answers in a row are such a case. *)
Theorem short_answer_ends_interview
  (s : SessionData) (e : engine) (pre : list AnswerScore)
  (s1 s2 : AnswerScore) (a : Answer) (ds dt : nat) :
  started s e ->
  scores s = (pre ++ [s1; s2])%list ->
  (overall s1 + overall s2 < 90)%Q ->
  answer a = "" \/ (String.length (strip (answer a)) < 10)%nat ->
  exists s',
    submit_answer s a ds dt
    = Ok (s',
          Complete zero_score
                   (calculate_final_score (scores s ++ [zero_score]))
                   (Some "Performance below threshold") true) /\
    interview_engine s' = Some e /\
    questions_asked s' = questions_asked s /\
    scores s' = (scores s ++ [zero_score])%list.
Proof.
  intros (He & Hsc & _ & _ & Hne & _) Hscores Hsum Hshort.
  destruct (rev_nonempty Hne) as (cq & rest & Hrev).
  unfold submit_answer. rewrite He, Hsc, Hrev.
  assert (Hzero : score_answer (question cq) (answer a) (expected_topics cq)
                               (time_taken a) 60 = zero_score).
  { unfold score_answer. apply too_short_spec in Hshort.
    now rewrite Hshort. }
  rewrite Hzero.
  assert (Hterm : should_terminate_early
                    (map overall (scores s ++ [zero_score])) = true).
  { rewrite Hscores, <- app_assoc, map_app. cbn [app map].
    unfold should_terminate_early.
    assert (Hlen : (List.length (map overall pre
                                 ++ [overall s1; overall s2;
                                     overall zero_score]) <? 3)%nat = false)
      by (apply Nat.ltb_ge; rewrite length_app; cbn; lia).
    rewrite Hlen, last_three_app. apply Qltb_lt.
    unfold py_sum. cbn [fold_left overall zero_score].
    set (o1 := overall s1) in *. set (o2 := overall s2) in *.
    clearbody o1 o2. apply Qlt_shift_div_r; lra. }
  rewrite Hterm. eexists. split; [reflexivity|].
  cbn [interview_engine questions_asked scores]. auto.
Qed.

Lemma twice_short_started :
  started twice_short_session
          {| current_difficulty := easy; question_count := 3;
             max_questions := 10 |}.
Proof.
  unfold started. repeat split; try (vm_compute; congruence);
    vm_compute; discriminate.
Defined.

Lemma short_answer_ends_interview_witness :
  scores twice_short_session = [zero_score; zero_score] /\
  exists s',
    submit_answer twice_short_session (mkAnswer "" 60) 0 0
    = Ok (s',
          Complete zero_score
                   (calculate_final_score
                      (scores twice_short_session ++ [zero_score]))
                   (Some "Performance below threshold") true) /\
    interview_engine s'
    = Some {| current_difficulty := easy; question_count := 3;
              max_questions := 10 |} /\
    questions_asked s' = questions_asked twice_short_session /\
    scores s' = (scores twice_short_session ++ [zero_score])%list.
Proof.
  assert (Hsc : scores twice_short_session
                = ([] ++ [zero_score; zero_score])%list) by reflexivity.
  split; [exact Hsc|].
  apply (@short_answer_ends_interview
           twice_short_session _ [] zero_score zero_score
           (mkAnswer "" 60) 0 0 twice_short_started Hsc).
  - reflexivity.
  - left. reflexivity.
Defined.

End EarlyEnd.
